(** * Knowledge-graph extraction pipeline ([main.py])

    A shallow embedding of the completion client ([call_gemini]), the graph
    projector ([format_for_st_link_analysis]) and the four-stage script that
    drives them, followed by the properties of the specification that were
    checked against it.

    Conventions of the embedding.
    - A value produced by [json.loads] is a [json]: [None], [bool], [int],
      [str], [list] and [dict].  Floating-point numbers are outside the model.
    - A Python [str] is a [string], a sequence of characters.
    - A [dict] decoded from JSON is the ordered list of its bindings; lookup
      takes the first binding of a key.
    - An uncaught Python exception is a result [Raise e]; nothing is hidden
      behind a default value.
    - [str.upper] and [json.loads] belong to the Python runtime, not to the
      program: they are fields of the class [Python].  A text that
      [json.loads] does not decode makes it raise [JSONDecodeError], or
      [ValueError] (an integer with more digits than the interpreter
      converts) or [RecursionError] (nesting too deep); the field
      [json_failure] says which.
    - The remote service is a function from the number of the request and
      its prompt to what [requests.post] does; a prompt keeps the template
      it was built from and the values put into it.
    - The page is the list of the Streamlit calls made so far. *)

From Stdlib Require Import ZArith Ascii.
From stdpp Require Import base numbers option list gmap strings pretty.

Set Warnings "-register-all".
Open Scope Z_scope.
Open Scope nat_scope.

(** ** JSON values *)

Inductive json : Type :=
  | JNull
  | JBool (b : bool)
  | JInt (z : Z)
  | JStr (s : string)
  | JArr (items : list json)
  | JObj (bindings : list (string * json)).

(** ** Python exceptions and results *)

Inductive exn : Type :=
  | RequestException
  | JSONDecodeError
  | KeyError
  | IndexError
  | TypeError
  | AttributeError
  | StopException
  | ValueError
  | RecursionError.

Inductive res (A : Type) : Type :=
  | Ret (a : A)
  | Raise (e : exn).
Arguments Ret {A} a.
Arguments Raise {A} e.

#[global] Instance exn_eq_dec : EqDecision exn.
Proof. solve_decision. Defined.

#[global] Instance res_eq_dec `{EqDecision A} : EqDecision (res A).
Proof. solve_decision. Defined.

#[global] Instance res_ret : MRet res := λ A a, Ret a.
#[global] Instance res_bind : MBind res := λ A B k m,
  match m with
  | Ret a => k a
  | Raise e => Raise e
  end.

(** [for x in xs: s = body(s, x)], stopping at the first exception. *)
Fixpoint for_each {S A} (body : S → A → res S) (s : S) (xs : list A) : res S :=
  match xs with
  | [] => Ret s
  | x :: xs' => s' ← body s x; for_each body s' xs'
  end.

(** ** The Python operations the program uses on decoded JSON *)

(** Truth value of an object ([if x], [not x]). *)
Definition truthy (v : json) : bool :=
  match v with
  | JNull => false
  | JBool b => b
  | JInt z => negb (z =? 0)%Z
  | JStr s => negb (String.eqb s EmptyString)
  | JArr items => negb (Nat.eqb (length items) 0)
  | JObj bindings => negb (Nat.eqb (length bindings) 0)
  end.

Fixpoint assoc (k : string) (bindings : list (string * json)) : option json :=
  match bindings with
  | [] => None
  | (k', v) :: rest => if String.eqb k k' then Some v else assoc k rest
  end.

(** [o.get(k, d)]; only a [dict] has the method. *)
Definition py_get (o : json) (k : string) (d : json) : res json :=
  match o with
  | JObj bindings => Ret (default d (assoc k bindings))
  | _ => Raise AttributeError
  end.

(** [o[k]] for a string key. *)
Definition py_getitem (o : json) (k : string) : res json :=
  match o with
  | JObj bindings =>
      match assoc k bindings with
      | Some v => Ret v
      | None => Raise KeyError
      end
  | _ => Raise TypeError
  end.

(** [o[0]]. *)
Definition py_getitem0 (o : json) : res json :=
  match o with
  | JArr (x :: _) => Ret x
  | JArr [] => Raise IndexError
  | JStr (String c _) => Ret (JStr (String c EmptyString))
  | JStr EmptyString => Raise IndexError
  | JObj _ => Raise KeyError
  | _ => Raise TypeError
  end.

(** [o[k] = v] on a [dict]: an existing key keeps its position. *)
Fixpoint assoc_set (k : string) (v : json) (bindings : list (string * json))
  : list (string * json) :=
  match bindings with
  | [] => [(k, v)]
  | (k', v') :: rest =>
      if String.eqb k k' then (k', v) :: rest
      else (k', v') :: assoc_set k v rest
  end.

Definition py_setitem (o : json) (k : string) (v : json) : res json :=
  match o with
  | JObj bindings => Ret (JObj (assoc_set k v bindings))
  | _ => Raise TypeError
  end.

Fixpoint chars (s : string) : list json :=
  match s with
  | EmptyString => []
  | String c s' => JStr (String c EmptyString) :: chars s'
  end.

(** The sequence a [for] loop runs over. *)
Definition py_iter (o : json) : res (list json) :=
  match o with
  | JArr items => Ret items
  | JObj bindings => Ret (JStr <$> bindings.*1)
  | JStr s => Ret (chars s)
  | _ => Raise TypeError
  end.

(** Keys of a Python [dict].  Hashing fails on [list] and [dict]; [True] and
    [1] (and [False] and [0]) are the same key. *)
Inductive pykey : Type :=
  | KNone
  | KInt (z : Z)
  | KStr (s : string).

#[global] Instance pykey_eq_dec : EqDecision pykey.
Proof. solve_decision. Defined.

#[global] Instance pykey_countable : Countable pykey.
Proof.
  refine (inj_countable'
    (λ k, match k with
          | KNone => inl ()
          | KInt z => inr (inl z)
          | KStr s => inr (inr s)
          end)
    (λ x, match x with
          | inl _ => KNone
          | inr (inl z) => KInt z
          | inr (inr s) => KStr s
          end) _).
  by intros [].
Defined.

Definition py_hash (v : json) : res pykey :=
  match v with
  | JNull => Ret KNone
  | JBool b => Ret (KInt (if b then 1 else 0)%Z)
  | JInt z => Ret (KInt z)
  | JStr s => Ret (KStr s)
  | JArr _ | JObj _ => Raise TypeError
  end.

(** [v == "literal"]. *)
Definition py_eq_str (v : json) (s : string) : bool :=
  match v with
  | JStr s' => String.eqb s' s
  | _ => false
  end.

(** ** Strings *)

Fixpoint str_drop (n : nat) (s : string) : string :=
  match n, s with
  | O, _ => s
  | S n', String _ s' => str_drop n' s'
  | S _, EmptyString => EmptyString
  end.

Fixpoint str_take (n : nat) (s : string) : string :=
  match n, s with
  | S n', String c s' => String c (str_take n' s')
  | _, _ => EmptyString
  end.

(** [s.startswith(p)] and [s.endswith(p)]. *)
Definition startswith (s p : string) : bool := String.prefix p s.

Definition endswith (s p : string) : bool :=
  String.eqb (str_drop (String.length s - String.length p) s) p.

(** [s[n:]] and [s[:-n]] for [n > 0]. *)
Definition slice_from (n : nat) (s : string) : string := str_drop n s.
Definition slice_until_last (n : nat) (s : string) : string :=
  str_take (String.length s - n) s.

(** ** The runtime *)

(** Why [json.loads] returns no value on a text. *)
Inductive decode_failure : Type :=
  | NotJson
  | DigitLimit
  | TooDeep.

(** The exception of each failure; only the first is a [JSONDecodeError]. *)
Definition raised_by (f : decode_failure) : exn :=
  match f with
  | NotJson => JSONDecodeError
  | DigitLimit => ValueError
  | TooDeep => RecursionError
  end.

Class Python : Type := {
  str_upper : string → string;
  json_loads : string → option json;
  json_failure : string → decode_failure;
}.

(** [json.loads(s)]: the value of [s], or the exception of its failure. *)
Definition py_json_loads `{Python} (s : string) : res json :=
  match json_loads s with
  | Some v => Ret v
  | None => Raise (raised_by (json_failure s))
  end.

(** [v.upper()]; only a [str] has the method. *)
Definition py_upper `{Python} (v : json) : res string :=
  match v with
  | JStr s => Ret (str_upper s)
  | _ => Raise AttributeError
  end.

(** ** Completion client: fence stripping (lines 29-33 of [call_gemini]) *)

Definition fence_open : string := "```json".
Definition fence_close : string := "```".

Definition strip_leading_fence (s : string) : string :=
  if startswith s fence_open then slice_from 7 s else s.

Definition strip_trailing_fence (s : string) : string :=
  if endswith s fence_close then slice_until_last 3 s else s.

Definition strip_markdown (model_output_string : string) : string :=
  strip_trailing_fence (strip_leading_fence model_output_string).

(** ** Graph projector *)

(** The dictionary stored under ["data"] for a node; [node_personality] is
    [None] when the key is absent. *)
Record node_data : Type := {
  node_id : nat;
  node_label : string;
  node_name : json;
  node_personality : option json;
}.

(** The dictionary stored under ["data"] for an edge. *)
Record edge_data : Type := {
  edge_id : string;
  edge_label : string;
  edge_source : nat;
  edge_target : nat;
}.

(** The dictionary with keys ["nodes"] and ["edges"] handed to the widget. *)
Record RenderGraph : Type := {
  nodes : list node_data;
  edges : list edge_data;
}.

Record NodeStyle : Type := {
  ns_label : string;
  ns_color : string;
  ns_caption : string;
  ns_icon : string;
}.

Definition node_styles : list NodeStyle :=
  [ Build_NodeStyle "PERSON" "#FF7F3E" "name" "person";
    Build_NodeStyle "ORGANIZATION" "#2A629A" "name" "business";
    Build_NodeStyle "LOCATION" "#2A629A" "name" "business";
    Build_NodeStyle "EVENT" "#2A629A" "name" "business";
    Build_NodeStyle "CONCEPT" "#2A629A" "name" "business" ].

(** The local variables of the node loop. *)
Record node_loop : Type := {
  elements_nodes : list node_data;
  node_name_to_id : gmap pykey nat;
  node_id_counter : nat;
}.

(** The local variables of the edge loop.  [all_edge_labels] is a Python
    [set]; the edge styles are one [EdgeStyle] per member, in the set's own
    iteration order, so the model returns the set. *)
Record edge_loop : Type := {
  elements_edges : list edge_data;
  all_edge_labels : gset string;
  edge_id_counter : nat;
}.

Section Projector.
Context `{Python}.

(** Body of the node loop (lines 138-155). *)
Definition add_node (st : node_loop) (node : json) : res node_loop :=
  node_name ← py_get node "name" JNull;
  if negb (truthy node_name) then Ret st else
  key ← py_hash node_name;
  match node_name_to_id st !! key with
  | Some _ => Ret st
  | None =>
      let current_id := node_id_counter st in
      raw_label ← py_get node "label" (JStr "ENTITY");
      label ← py_upper raw_label;
      personality ←
        (if String.eqb label "PERSON"
         then p ← py_get node "personality" (JStr EmptyString); Ret (Some p)
         else Ret None);
      Ret {| elements_nodes :=
               elements_nodes st ++
               [ {| node_id := current_id; node_label := label;
                    node_name := node_name;
                    node_personality := personality |} ];
             node_name_to_id := <[key := current_id]> (node_name_to_id st);
             node_id_counter := S current_id |}
  end.

(** Body of the edge loop (lines 171-186).  The [and] of line 176 does not
    hash the target when the source is unknown. *)
Definition add_edge (ids : gmap pykey nat) (st : edge_loop) (edge : json)
  : res edge_loop :=
  source_name ← py_get edge "source" JNull;
  target_name ← py_get edge "target" JNull;
  raw_label ← py_get edge "label" (JStr "RELATED_TO");
  edge_label ← py_upper raw_label;
  source_key ← py_hash source_name;
  match ids !! source_key with
  | None => Ret st
  | Some source =>
      target_key ← py_hash target_name;
      match ids !! target_key with
      | None => Ret st
      | Some target =>
          Ret {| elements_edges :=
                   elements_edges st ++
                   [ {| edge_id := "e" +:+ pretty (edge_id_counter st);
                        edge_label := edge_label;
                        edge_source := source;
                        edge_target := target |} ];
                 all_edge_labels := {[ edge_label ]} ∪ all_edge_labels st;
                 edge_id_counter := S (edge_id_counter st) |}
      end
  end.

Definition node_loop_init : node_loop :=
  {| elements_nodes := []; node_name_to_id := ∅; node_id_counter := 1 |}.

Definition edge_loop_init : edge_loop :=
  {| elements_edges := []; all_edge_labels := ∅; edge_id_counter := 1 |}.

Definition format_for_st_link_analysis (llm_json_output : json)
  : res (RenderGraph * list NodeStyle * gset string) :=
  nodes_value ← py_get llm_json_output "nodes" (JArr []);
  node_list ← py_iter nodes_value;
  nl ← for_each add_node node_loop_init node_list;
  edges_value ← py_get llm_json_output "edges" (JArr []);
  edge_list ← py_iter edges_value;
  el ← for_each (add_edge (node_name_to_id nl)) edge_loop_init edge_list;
  Ret ({| nodes := elements_nodes nl; edges := elements_edges el |},
       node_styles, all_edge_labels el).

End Projector.

(** ** The script: prompts, the remote service and the screen *)

(** A prompt is one of four fixed templates; only the values interpolated
    into the template are kept.  [generated_json] stands for the text
    [json.dumps(llm_json_output, indent=2)]. *)
Inductive prompt : Type :=
  | build_step1_prompt (document_text : string)
  | build_step2_prompt (person_name : json) (document_text : string)
  | build_step3_prompt (node_names : list json) (document_text : string)
  | build_step4_prompt (document_text : string) (generated_json : json).

(** What [requests.post] does: it raises a [RequestException], or returns a
    response with a status code and a body text. *)
Inductive reply : Type :=
  | ConnectionError
  | Response (status_code : Z) (text : string).

(** The error strings returned by [call_gemini] (lines 24, 38, 41, 43). *)
Inductive call_error : Type :=
  | ApiCallFailed (status_code : Z) (text : string)
  | NetworkRequestFailed
  | FailedToDecodeJson
  | UnexpectedResponseFormat (response_json : json).

(** The texts shown on the page. *)
Inductive message : Type :=
  | RawTextNotJson (model_output_string : string)
  | ErrorInStep1 (error : call_error)
  | NoEntitiesFound
  | ErrorInStep3 (error : call_error)
  | EvaluationStepFailed (v_error : call_error)
  | GraphGenerationComplete (n_nodes n_edges : nat)
  | ErrorRenderingGraph.

(** The Streamlit calls of the script, by function. *)
Inductive ui : Type :=
  | st_error (m : message)
  | st_warning (m : message)
  | st_success (m : message)
  | st_markdown
  | st_subheader
  | st_metric (label : string) (value : json)
  | st_link_analysis (e : RenderGraph) (ns : list NodeStyle) (es : gset string).

(** The remote service answers the n-th request (counted from 0) as a
    function of the prompt; the graph widget may raise. *)
Record env : Type := {
  oracle : nat → prompt → reply;
  widget_raises : bool;
}.

Record world : Type := {
  posts : list prompt;
  screen : list ui;
}.

Definition script (A : Type) : Type := world → res A * world.

#[global] Instance script_ret : MRet script := λ A a w, (Ret a, w).
#[global] Instance script_bind : MBind script := λ A B k m w,
  match m w with
  | (Ret a, w') => k a w'
  | (Raise e, w') => (Raise e, w')
  end.

Definition lift {A} (r : res A) : script A := λ w, (r, w).
Definition raise {A} (e : exn) : script A := λ w, (Raise e, w).

Definition show (u : ui) : script () := λ w,
  (Ret (), {| posts := posts w; screen := screen w ++ [u] |}).

(** [st.stop()] ends the script run. *)
Definition st_stop {A} : script A := raise StopException.

Definition initial_world : world := {| posts := []; screen := [] |}.

Section Script.
Context `{Python} (E : env).

Definition requests_post (p : prompt) : script reply := λ w,
  (Ret (oracle E (length (posts w)) p),
   {| posts := posts w ++ [p]; screen := screen w |}).

(** [response_json['candidates'][0]['content']['parts'][0]['text']] *)
Definition candidate_text (response_json : json) : res json :=
  a ← py_getitem response_json "candidates";
  b ← py_getitem0 a;
  c ← py_getitem b "content";
  d ← py_getitem c "parts";
  e ← py_getitem0 d;
  py_getitem e "text".

(** Lines 29-35 and the handler of line 39, once the candidate text is a
    [str].  No handler catches what [json.loads] raises besides
    [JSONDecodeError]. *)
Definition parse_model_output (model_output_string : string)
  : script (json * option call_error) :=
  let model_output_string := strip_markdown model_output_string in
  match py_json_loads model_output_string with
  | Ret parsed => mret (parsed, None)
  | Raise JSONDecodeError =>
      show (st_error (RawTextNotJson model_output_string));;
      mret (JNull, Some FailedToDecodeJson)
  | Raise e => raise e
  end.

(** [call_gemini] returns the pair [(parsed, error)]; [JNull] is Python's
    [None].  A [JSONDecodeError] of [response.json()] is a
    [RequestException] (requests 2.27 and later), any other exception of the
    decoder passes through it; [KeyError] and [IndexError] are caught, a
    [TypeError], an [AttributeError], a [ValueError] or a [RecursionError]
    is not. *)
Definition call_gemini (p : prompt) : script (json * option call_error) :=
  response ← requests_post p;
  match response with
  | ConnectionError => mret (JNull, Some NetworkRequestFailed)
  | Response status_code text =>
      if negb (status_code =? 200)%Z
      then mret (JNull, Some (ApiCallFailed status_code text))
      else
        match py_json_loads text with
        | Raise JSONDecodeError => mret (JNull, Some NetworkRequestFailed)
        | Raise e => raise e
        | Ret response_json =>
            match candidate_text response_json with
            | Ret (JStr model_output_string) =>
                parse_model_output model_output_string
            | Ret _ => raise AttributeError
            | Raise KeyError | Raise IndexError =>
                mret (JNull, Some (UnexpectedResponseFormat response_json))
            | Raise e => raise e
            end
        end
  end.

End Script.

Section Pipeline.
Context `{Python} (E : env).

(** A [for] loop of the script. *)
Fixpoint script_for {S A} (body : S → A → script S) (s : S) (xs : list A)
  : script S :=
  match xs with
  | [] => mret s
  | x :: xs' => s' ← body s x; script_for body s' xs'
  end.

(** Body of the loop of Step 2 (lines 219-223); the state is
    [final_nodes]. *)
Definition analyze_personality (document_text : string)
    (final_nodes : list json) (node : json) : script (list json) :=
  label ← lift (py_get node "label" JNull);
  node ←
    (if py_eq_str label "PERSON" then
       name ← lift (py_getitem node "name");
       '(personality_json, p_error) ←
         call_gemini E (build_step2_prompt name document_text);
       personality ←
         match p_error with
         | Some _ => mret (JStr EmptyString)
         | None =>
             lift (py_get personality_json "personality" (JStr EmptyString))
         end;
       lift (py_setitem node "personality" personality)
     else mret node);
  mret (final_nodes ++ [node]).

(** Step 1 (lines 206-214). *)
Definition step1 (document_text : string) : script json :=
  '(nodes_list, error) ← call_gemini E (build_step1_prompt document_text);
  match error with
  | Some e => show (st_error (ErrorInStep1 e));; st_stop
  | None =>
      if negb (truthy nodes_list)
      then show (st_warning NoEntitiesFound);; st_stop
      else mret nodes_list
  end.

(** Step 2 (lines 217-223). *)
Definition step2 (document_text : string) (nodes_list : json)
  : script (list json) :=
  node_list ← lift (py_iter nodes_list);
  script_for (analyze_personality document_text) [] node_list.

(** Step 3 (lines 226-232). *)
Definition step3 (document_text : string) (final_nodes : list json)
  : script json :=
  node_names ← lift (for_each (λ names n,
                       name ← py_getitem n "name"; Ret (names ++ [name]))
                     [] final_nodes);
  '(final_edges, error) ←
    call_gemini E (build_step3_prompt node_names document_text);
  match error with
  | Some e => show (st_error (ErrorInStep3 e));; mret (JArr [])
  | None => mret final_edges
  end.

(** Step 4 (lines 240-256). *)
Definition step4 (document_text : string) (llm_json_output : json)
  : script () :=
  '(evaluation_json, v_error) ←
    call_gemini E (build_step4_prompt document_text llm_json_output);
  show st_subheader;;
  match v_error with
  | Some e => show (st_warning (EvaluationStepFailed e))
  | None =>
      correctness ← lift (py_get evaluation_json "correctness_score" (JInt 0));
      completeness ← lift (py_get evaluation_json "completeness_score" (JInt 0));
      show (st_metric "Correctness Score" correctness);;
      show (st_metric "Completeness Score" completeness)
  end.

(** Lines 261-267. *)
Definition render (llm_json_output : json) : script () :=
  '(elems, node_style_objs, edge_style_objs) ←
    lift (format_for_st_link_analysis llm_json_output);
  show (st_success (GraphGenerationComplete (length (nodes elems))
                                            (length (edges elems))));;
  show (st_link_analysis elems node_style_objs edge_style_objs);;
  if widget_raises E then show (st_error ErrorRenderingGraph) else mret ().

(** Line 235. *)
Definition document_graph (final_nodes : list json) (final_edges : json)
  : json :=
  JObj [("nodes", JArr final_nodes); ("edges", final_edges)].

(** The [else] branch of the script from line 202 on (lines 202-267):
    [document_text] is the text that line 201 has decoded from the upload;
    the decoding itself is not part of [pipeline]. *)
Definition pipeline (document_text : string) : script () :=
  nodes_list ← step1 document_text;
  final_nodes ← step2 document_text nodes_list;
  final_edges ← step3 document_text final_nodes;
  let llm_json_output := document_graph final_nodes final_edges in
  show st_markdown;;
  step4 document_text llm_json_output;;
  show st_markdown;;
  render llm_json_output.

Definition run (document_text : string) : res () * world :=
  pipeline document_text initial_world.

End Pipeline.

(** ** A concrete runtime for the examples

    [ascii_upper] is [str.upper] on ASCII text.  [Decoder.loads] decodes the
    part of JSON the examples use: objects, arrays, strings with the
    two-character escapes, integers and the three literals, with white space
    between tokens; it rejects every other text, as not being JSON.
    [Decoder.dumps] writes a value back in compact form. *)

Definition upper_char (c : ascii) : ascii :=
  let n := nat_of_ascii c in
  if (97 <=? n) && (n <=? 122) then ascii_of_nat (n - 32) else c.

Fixpoint ascii_upper (s : string) : string :=
  match s with
  | EmptyString => EmptyString
  | String c s' => String (upper_char c) (ascii_upper s')
  end.

Definition is_ascii_text (s : string) : bool :=
  forallb (λ c, nat_of_ascii c <? 128) (String.list_ascii_of_string s).

Module Decoder.

Definition quote : ascii := ascii_of_nat 34.
Definition backslash : ascii := ascii_of_nat 92.
Definition backquote : ascii := ascii_of_nat 96.

Definition is_ws (c : ascii) : bool :=
  let n := nat_of_ascii c in
  (n =? 32) || (n =? 9) || (n =? 10) || (n =? 13).

Fixpoint skip_ws (s : string) : string :=
  match s with
  | String c s' => if is_ws c then skip_ws s' else s
  | EmptyString => EmptyString
  end.

Definition digit (c : ascii) : option Z :=
  let n := nat_of_ascii c in
  if (48 <=? n) && (n <=? 57) then Some (Z.of_nat (n - 48)) else None.

Fixpoint digits (acc : Z) (s : string) : Z * string :=
  match s with
  | String c s' =>
      match digit c with
      | Some d => digits (10 * acc + d)%Z s'
      | None => (acc, s)
      end
  | EmptyString => (acc, s)
  end.

(** A fraction or an exponent follows. *)
Definition starts_fraction (s : string) : bool :=
  match s with
  | String c _ =>
      Ascii.eqb c "."%char || Ascii.eqb c "e"%char || Ascii.eqb c "E"%char
  | EmptyString => false
  end.

(** 0, or a digit string without a leading 0; a fraction or an exponent is
    rejected. *)
Definition unsigned (s : string) : option (Z * string) :=
  match s with
  | String c s' =>
      match digit c with
      | Some d =>
          let '(n, rest) := if (d =? 0)%Z then (0%Z, s') else digits d s' in
          if starts_fraction rest then None else Some (n, rest)
      | None => None
      end
  | EmptyString => None
  end.

Definition number (s : string) : option (Z * string) :=
  match s with
  | String c s' =>
      if Ascii.eqb c "-"%char then
        match unsigned s' with
        | Some (n, rest) => Some ((- n)%Z, rest)
        | None => None
        end
      else unsigned s
  | EmptyString => None
  end.

Definition unescape (c : ascii) : option ascii :=
  if Ascii.eqb c quote then Some quote
  else if Ascii.eqb c backslash then Some backslash
  else if Ascii.eqb c "/"%char then Some "/"%char
  else if Ascii.eqb c "b"%char then Some (ascii_of_nat 8)
  else if Ascii.eqb c "f"%char then Some (ascii_of_nat 12)
  else if Ascii.eqb c "n"%char then Some (ascii_of_nat 10)
  else if Ascii.eqb c "r"%char then Some (ascii_of_nat 13)
  else if Ascii.eqb c "t"%char then Some (ascii_of_nat 9)
  else None.

(** The characters after an opening quote, up to the closing one;
    [escaped] holds after a backslash. *)
Fixpoint string_body (escaped : bool) (s : string) : option (string * string) :=
  match s with
  | EmptyString => None
  | String c s' =>
      if escaped then
        match unescape c, string_body false s' with
        | Some c', Some (body, rest) => Some (String c' body, rest)
        | _, _ => None
        end
      else if Ascii.eqb c quote then Some (EmptyString, s')
      else if Ascii.eqb c backslash then string_body true s'
      else if nat_of_ascii c <? 32 then None
      else
        match string_body false s' with
        | Some (body, rest) => Some (String c body, rest)
        | None => None
        end
  end.

(** A literal or a number. *)
Definition atom (s : string) : option (json * string) :=
  if String.prefix "null" s then Some (JNull, str_drop 4 s)
  else if String.prefix "true" s then Some (JBool true, str_drop 4 s)
  else if String.prefix "false" s then Some (JBool false, str_drop 5 s)
  else
    match number s with
    | Some (z, r) => Some (JInt z, r)
    | None => None
    end.

Section Containers.
Variable value : string → option (json * string).

(** The items of an array, from the first one. *)
Fixpoint elements_ (n : nat) (s : string) (acc : list json)
  : option (list json * string) :=
  match n with
  | O => None
  | S n' =>
      match value s with
      | Some (v, r) =>
          match skip_ws r with
          | String c r' =>
              if Ascii.eqb c ","%char
              then elements_ n' (skip_ws r') (acc ++ [v])
              else if Ascii.eqb c "]"%char then Some (acc ++ [v], r')
              else None
          | EmptyString => None
          end
      | None => None
      end
  end.

(** The members of an object, from the first key; a repeated key keeps its
    first position and takes the last value. *)
Fixpoint members (n : nat) (s : string) (acc : list (string * json))
  : option (list (string * json) * string) :=
  match n with
  | O => None
  | S n' =>
      match s with
      | String c s1 =>
          if Ascii.eqb c quote then
            match string_body false s1 with
            | Some (k, r1) =>
                match skip_ws r1 with
                | String c2 r2 =>
                    if Ascii.eqb c2 ":"%char then
                      match value (skip_ws r2) with
                      | Some (v, r3) =>
                          match skip_ws r3 with
                          | String c4 r4 =>
                              if Ascii.eqb c4 ","%char
                              then members n' (skip_ws r4) (assoc_set k v acc)
                              else if Ascii.eqb c4 "}"%char
                              then Some (assoc_set k v acc, r4)
                              else None
                          | EmptyString => None
                          end
                      | None => None
                      end
                    else None
                | EmptyString => None
                end
            | None => None
            end
          else None
      | EmptyString => None
      end
  end.
End Containers.

Fixpoint value (fuel : nat) (s : string) : option (json * string) :=
  match fuel with
  | O => None
  | S fuel' =>
      match s with
      | String c s1 =>
          if Ascii.eqb c "["%char then
            match skip_ws s1 with
            | String c2 s2 =>
                if Ascii.eqb c2 "]"%char then Some (JArr [], s2)
                else
                  match elements_ (value fuel') (String.length s1)
                                  (skip_ws s1) [] with
                  | Some (items, r) => Some (JArr items, r)
                  | None => None
                  end
            | EmptyString => None
            end
          else if Ascii.eqb c "{"%char then
            match skip_ws s1 with
            | String c2 s2 =>
                if Ascii.eqb c2 "}"%char then Some (JObj [], s2)
                else
                  match members (value fuel') (String.length s1)
                                (skip_ws s1) [] with
                  | Some (bindings, r) => Some (JObj bindings, r)
                  | None => None
                  end
            | EmptyString => None
            end
          else if Ascii.eqb c quote then
            match string_body false s1 with
            | Some (body, r) => Some (JStr body, r)
            | None => None
            end
          else atom s
      | EmptyString => None
      end
  end.

Definition loads (s : string) : option json :=
  match value (S (String.length s)) (skip_ws s) with
  | Some (v, r) =>
      match skip_ws r with
      | EmptyString => Some v
      | _ => None
      end
  | None => None
  end.

(** The character after the backslash when [c] is written escaped. *)
Definition escape_char (c : ascii) : option ascii :=
  if Ascii.eqb c quote || Ascii.eqb c backslash then Some c
  else if Ascii.eqb c (ascii_of_nat 8) then Some "b"%char
  else if Ascii.eqb c (ascii_of_nat 12) then Some "f"%char
  else if Ascii.eqb c (ascii_of_nat 10) then Some "n"%char
  else if Ascii.eqb c (ascii_of_nat 13) then Some "r"%char
  else if Ascii.eqb c (ascii_of_nat 9) then Some "t"%char
  else None.

Fixpoint escape (s : string) : string :=
  match s with
  | EmptyString => EmptyString
  | String c s' =>
      match escape_char c with
      | Some e => String backslash (String e (escape s'))
      | None => String c (escape s')
      end
  end.

Definition dumps_str (s : string) : string :=
  String quote (escape s) +:+ String quote EmptyString.

Fixpoint join (sep : string) (parts : list string) : string :=
  match parts with
  | [] => EmptyString
  | [x] => x
  | x :: rest => x +:+ sep +:+ join sep rest
  end.

Fixpoint dumps (v : json) : string :=
  match v with
  | JNull => "null"
  | JBool true => "true"
  | JBool false => "false"
  | JInt z => pretty z
  | JStr s => dumps_str s
  | JArr items => "[" +:+ join "," (map dumps items) +:+ "]"
  | JObj bindings =>
      "{" +:+
      join "," (map (λ kv, dumps_str (fst kv) +:+ ":" +:+ dumps (snd kv))
                    bindings) +:+
      "}"
  end.

End Decoder.

#[local] Instance example_runtime : Python :=
  {| str_upper := ascii_upper; json_loads := Decoder.loads;
     json_failure := λ _, NotJson |}.

(** ** Vocabulary of the specification *)

(** [o.get(k)] read as data: the field of an object, if it has one. *)
Definition field (k : string) (o : json) : option json :=
  match o with
  | JObj bindings => assoc k bindings
  | _ => None
  end.

Definition is_str (v : json) : bool :=
  match v with JStr _ => true | _ => false end.

Definition hashable (v : json) : bool :=
  match v with JArr _ | JObj _ => false | _ => true end.

Definition is_obj (v : json) : bool :=
  match v with JObj _ => true | _ => false end.

(** A field that is absent is well formed. *)
Definition field_ok (check : json → bool) (k : string) (o : json) : bool :=
  match field k o with
  | Some v => check v
  | None => true
  end.

(** A node is an object whose name, if any, is a scalar and whose label, if
    any, is a string; likewise for an edge and its endpoints. *)
Definition node_shape (node : json) : bool :=
  is_obj node && field_ok hashable "name" node && field_ok is_str "label" node.

Definition edge_shape (edge : json) : bool :=
  is_obj edge && field_ok hashable "source" edge &&
  field_ok hashable "target" edge && field_ok is_str "label" edge.

Definition name_of (node : json) : json := default JNull (field "name" node).
Definition source_of (edge : json) : json := default JNull (field "source" edge).
Definition target_of (edge : json) : json := default JNull (field "target" edge).

Definition label_of (missing : string) (o : json) : string :=
  match field "label" o with
  | Some (JStr s) => s
  | _ => missing
  end.

(** Two names are the same when they are the same dictionary key; on strings
    this is equality of strings. *)
Definition same_name (a b : json) : bool :=
  bool_decide (py_hash a = py_hash b).

(** The node at position [j] is the first occurrence of a non-empty name. *)
Definition first_occurrence (ns : list json) (j : nat) : bool :=
  match ns !! j with
  | Some n =>
      truthy (name_of n) &&
      forallb (λ m, negb (same_name (name_of m) (name_of n))) (take j ns)
  | None => false
  end.

(** The first occurrences, in the order of the list. *)
Definition kept (ns : list json) : list json :=
  omap (λ j, if first_occurrence ns j then ns !! j else None)
       (seq 0 (length ns)).

(** The id given to a name by a list of projected nodes. *)
Fixpoint assigned_id (nds : list node_data) (name : json) : option nat :=
  match nds with
  | [] => None
  | nd :: rest =>
      if same_name (node_name nd) name then Some (node_id nd)
      else assigned_id rest name
  end.

Definition accepted (nds : list node_data) (edge : json) : bool :=
  bool_decide (is_Some (assigned_id nds (source_of edge))) &&
  bool_decide (is_Some (assigned_id nds (target_of edge))).

Section Entries.
Context `{Python}.

(** The projected node of id [i]. *)
Definition node_entry (i : nat) (node : json) : node_data :=
  let label := str_upper (label_of "ENTITY" node) in
  {| node_id := i;
     node_label := label;
     node_name := name_of node;
     node_personality :=
       if String.eqb label "PERSON"
       then Some (default (JStr EmptyString) (field "personality" node))
       else None |}.

(** The projected edge of number [i] between projected nodes [nds]. *)
Definition edge_entry (nds : list node_data) (i : nat) (edge : json)
  : edge_data :=
  {| edge_id := "e" +:+ pretty i;
     edge_label := str_upper (label_of "RELATED_TO" edge);
     edge_source := default 0 (assigned_id nds (source_of edge));
     edge_target := default 0 (assigned_id nds (target_of edge)) |}.
End Entries.

(** ** Loop invariants of the projector *)

(** Truth value of the object behind a dictionary key. *)
Definition key_truthy (k : pykey) : bool :=
  match k with
  | KNone => false
  | KInt z => negb (z =? 0)%Z
  | KStr s => negb (String.eqb s EmptyString)
  end.

(** After the node loop has run over [l]: the nodes built so far are the
    first occurrences in [l], numbered from 1; the dictionary gives each name
    the id of its node; its keys are the non-empty names of [l]. *)
Record node_inv `{Python} (l : list json) (st : node_loop) : Prop := {
  inv_nodes : elements_nodes st = imap (λ j, node_entry (S j)) (kept l);
  inv_counter : node_id_counter st = S (length (kept l));
  inv_ids : ∀ name k, py_hash name = Ret k →
    node_name_to_id st !! k = assigned_id (elements_nodes st) name;
  inv_seen : ∀ k, is_Some (node_name_to_id st !! k) ↔
    ∃ m, m ∈ l ∧ truthy (name_of m) = true ∧ py_hash (name_of m) = Ret k;
}.

(** After the edge loop has run over [es], given the projected nodes. *)
Record edge_inv `{Python} (nds : list node_data) (es : list json)
    (st : edge_loop) : Prop := {
  inv_edges : elements_edges st =
    imap (λ j, edge_entry nds (S j)) (filter (λ e, accepted nds e = true) es);
  inv_edge_counter : edge_id_counter st = S (length (elements_edges st));
  inv_labels : all_edge_labels st = list_to_set (edge_label <$> elements_edges st);
}.

(** ** Inputs of the examples *)

Definition null_label_graph : json :=
  document_graph [JObj [("name", JStr "Alice"); ("label", JNull)]] (JArr []).

Definition sparse_nodes : list json :=
  [ JObj [("name", JStr "Alice")];
    JObj [("label", JStr "person")];
    JObj [("name", JStr "Bob"); ("label", JStr "person")] ].
Definition sparse_edges : list json :=
  [ JObj [("source", JStr "Alice"); ("target", JStr "Bob")] ].

Definition scenario_nodes (p1 p2 : string) : list json :=
  [ JObj [("name", JStr "Alice"); ("label", JStr "PERSON");
          ("personality", JStr p1)];
    JObj [("name", JStr "Bob"); ("label", JStr "PERSON");
          ("personality", JStr p2)];
    JObj [("name", JStr "Acme Corp"); ("label", JStr "ORGANIZATION")];
    JObj [("name", JStr "Paris"); ("label", JStr "LOCATION")] ].
Definition scenario_edges : list json :=
  [ JObj [("source", JStr "Alice"); ("label", JStr "works_at");
          ("target", JStr "Acme Corp")];
    JObj [("source", JStr "Alice"); ("label", JStr "met");
          ("target", JStr "Bob")] ].
Definition scenario_render (p1 p2 : string) : RenderGraph :=
  {| nodes :=
       [ Build_node_data 1 "PERSON" (JStr "Alice") (Some (JStr p1));
         Build_node_data 2 "PERSON" (JStr "Bob") (Some (JStr p2));
         Build_node_data 3 "ORGANIZATION" (JStr "Acme Corp") None;
         Build_node_data 4 "LOCATION" (JStr "Paris") None ];
     edges :=
       [ Build_edge_data "e1" "WORKS_AT" 1 3;
         Build_edge_data "e2" "MET" 1 2 ] |}.

Definition agrees_on_ascii `{Python} : Prop :=
  ∀ s, is_ascii_text s = true → str_upper s = ascii_upper s.

(** ** Fenced payloads and kinds of page output *)

Definition newline : string := String (ascii_of_nat 10) EmptyString.

(** The fenced block around a payload. *)
Definition fenced (t : string) : string :=
  fence_open +:+ newline +:+ t +:+ newline +:+ fence_close.

Definition is_render (u : ui) : bool :=
  match u with
  | st_link_analysis _ _ _ | st_success _ => true
  | _ => false
  end.


(** ** Entities in Step 2 *)

Definition is_person (node : json) : bool :=
  py_eq_str (default JNull (field "label" node)) "PERSON".

(** What Step 2 needs of an entity: an object, with a name if it is a
    person. *)
Definition entity_shape (node : json) : bool :=
  is_obj node &&
  (if is_person node then bool_decide (is_Some (field "name" node)) else true).

(** [node["personality"] = p]. *)
Definition with_personality (node : json) (p : json) : json :=
  match node with
  | JObj bindings => JObj (assoc_set "personality" p bindings)
  | _ => node
  end.

(** The entity after Step 2: a person has a personality, any other entity
    is unchanged. *)
Definition enriched (node node' : json) : Prop :=
  if is_person node then ∃ p, node' = with_personality node p
  else node' = node.

(** Every personality call returns: an error, or a decoded object. *)
Definition personality_calls_return `{Python} (E : env) (document_text : string)
  : Prop :=
  ∀ name w, ∃ parsed error w',
    call_gemini E (build_step2_prompt name document_text) w
      = (Ret (parsed, error), w') ∧
    (error = None → is_obj parsed = true).

(** ** Page output of the later steps *)




Definition has_name (node : json) : bool :=
  bool_decide (is_Some (field "name" node)).


(** ** Ends of strings, for the decoder *)

Fixpoint last_char (s : string) : option ascii :=
  match s with
  | EmptyString => None
  | String c s' =>
      match last_char s' with
      | Some x => Some x
      | None => Some c
      end
  end.

(** [r] is what remains of [s] after some characters. *)
Definition suffix_of (r s : string) : Prop := ∃ c, s = c +:+ r.

(** [r] is what remains of [s] after some characters, the last of which is
    not a backquote. *)
Definition ends_at (s r : string) : Prop :=
  ∃ c x, s = c +:+ String x r ∧ x ≠ Decoder.backquote.

(** ** The decoder as a parameter; replies of the examples *)

(** Two facts about JSON texts that a decoder satisfies: line breaks around
    a text do not change its value, and no text begins or ends with a
    backquote. *)
Class JsonText `{Python} : Prop := {
  loads_padded : ∀ s v,
    json_loads s = Some v → json_loads (newline +:+ s +:+ newline) = Some v;
  loads_no_backquote : ∀ s v,
    json_loads s = Some v →
    startswith s "`" = false ∧ endswith s "`" = false;
}.

(** The candidate text a call extracts from the response (line 27), when the
    call gets that far. *)
Definition extracted_text `{Python} (E : env) (p : prompt) (w : world)
  : option string :=
  match oracle E (length (posts w)) p with
  | Response status_code text =>
      if (status_code =? 200)%Z then
        match json_loads text with
        | Some response_json =>
            match candidate_text response_json with
            | Ret (JStr model_output_string) => Some model_output_string
            | _ => None
            end
        | None => None
        end
      else None
  | ConnectionError => None
  end.

(** The body of a successful response whose candidate text is [text]. *)
Definition envelope (text : string) : json :=
  JObj [("candidates",
         JArr [JObj [("content",
                      JObj [("parts", JArr [JObj [("text", JStr text)]])])]])].

Definition gemini_says (text : string) : reply :=
  Response 200 (Decoder.dumps (envelope text)).

(** The service that answers the n-th request with the n-th reply. *)
Definition scripted (replies : list reply) : env :=
  {| oracle := λ n _, default ConnectionError (replies !! n);
     widget_raises := false |}.

(** A payload of the examples, as a value and as a text. *)
Definition payload_value : json :=
  JArr [JObj [("name", JStr "Alice"); ("label", JStr "PERSON")]].
Definition payload : string := Decoder.dumps payload_value.

(** ** Services and documents of the examples *)

Definition gemini_returns (v : json) : reply := gemini_says (Decoder.dumps v).

Definition document : string := "Alice met Bob at Acme Corp in Paris.".

Definition entity (name label : string) : json :=
  JObj [("name", JStr name); ("label", JStr label)].

Definition stage1_entities : json :=
  JArr [ entity "Alice" "PERSON"; entity "Bob" "PERSON";
         entity "Acme Corp" "ORGANIZATION"; entity "Paris" "LOCATION" ].

Definition traits (text : string) : json := JObj [("personality", JStr text)].



Definition stray_edge : json :=
  JObj [("source", JStr "Alice"); ("label", JStr "met"); ("target", JStr "Zed")].


Definition with_traits (name label text : string) : json :=
  JObj [("name", JStr name); ("label", JStr label);
        ("personality", JStr text)].


(** A service that is down. *)
Definition service_down : env := scripted [].

(** A service that finds no entity. *)
Definition service_finds_nothing : env := scripted [gemini_returns (JArr [])].

(** A service whose personality call fails for Alice and for nobody else. *)
Definition moody_service : env :=
  {| oracle := λ _ p,
       match p with
       | build_step2_prompt name _ =>
           if py_eq_str name "Alice" then ConnectionError
           else gemini_returns (traits "bold")
       | _ => ConnectionError
       end;
     widget_raises := false |}.

(** ** Further vocabulary: the client, the prompt of Step 3, the projector's
    domain and more services *)

(** The world after one more request. *)
Definition posted (w : world) (p : prompt) : world :=
  {| posts := posts w ++ [p]; screen := screen w |}.

(** A response whose body has no list of candidates. *)
Definition gemini_without_candidates : reply :=
  Response 200 (Decoder.dumps (JObj [("candidates", JNull)])).

(** ** The list of names in the prompt of Step 3 (line 81)

    [", ".join([f'"{name}"' for name in node_names])], for names that are
    strings: each name between double quotes, the quoted names joined by a
    comma and a space. *)
Definition quoted (name : string) : string :=
  String Decoder.quote (name +:+ String Decoder.quote EmptyString).

Definition entity_list_str (node_names : list string) : string :=
  Decoder.join ", " (quoted <$> node_names).

Fixpoint has_quote (s : string) : bool :=
  match s with
  | EmptyString => false
  | String c s' => Ascii.eqb c Decoder.quote || has_quote s'
  end.

(** What stands between two names in the list. *)
Definition name_separator : string :=
  String Decoder.quote (", " +:+ String Decoder.quote EmptyString).

(** ** The inputs on which the projector returns *)

(** The body of the node loop returns on [x], which comes after the nodes
    [before]: [x] is an object; its name, if not empty, is a scalar; its
    label, if it is a first occurrence, is a string or absent. *)
Definition node_passes (before : list json) (x : json) : bool :=
  is_obj x &&
  implb (truthy (name_of x)) (hashable (name_of x)) &&
  implb (first_occurrence (before ++ [x]) (length before))
        (field_ok is_str "label" x).

Fixpoint nodes_pass (before ns : list json) : bool :=
  match ns with
  | [] => true
  | x :: rest => node_passes before x && nodes_pass (before ++ [x]) rest
  end.

(** The body of the edge loop returns on [e], given the projected nodes:
    [e] is an object; its label is a string or absent; its source is a
    scalar; its target is a scalar if the source has an id. *)
Definition edge_passes (nds : list node_data) (e : json) : bool :=
  is_obj e && field_ok is_str "label" e && hashable (source_of e) &&
  implb (bool_decide (is_Some (assigned_id nds (source_of e))))
        (hashable (target_of e)).


(** The two lists the loops of the projector run over. *)
Definition graph_lists (llm_json_output : json)
  : option (list json * list json) :=
  match llm_json_output with
  | JObj bindings =>
      match py_iter (default (JArr []) (assoc "nodes" bindings)),
            py_iter (default (JArr []) (assoc "edges" bindings)) with
      | Ret node_list, Ret edge_list => Some (node_list, edge_list)
      | _, _ => None
      end
  | _ => None
  end.

Section Projection.
Context `{Python}.

Definition projected_nodes (ns : list json) : list node_data :=
  imap (λ j, node_entry (S j)) (kept ns).

Definition projected_edges (nds : list node_data) (es : list json)
  : list edge_data :=
  imap (λ j, edge_entry nds (S j)) (filter (λ e, accepted nds e = true) es).

(** The inputs on which the projector returns. *)
Definition projector_accepts (llm_json_output : json) : bool :=
  match graph_lists llm_json_output with
  | Some (ns, es) =>
      nodes_pass [] ns && forallb (edge_passes (projected_nodes ns)) es
  | None => false
  end.
End Projection.


(** A graph with a repeated name whose second label is [null], an entity
    with an empty name and a number as label, a relationship from an unknown
    source to a list, and a relationship from Alice to herself. *)
Definition ragged_graph : json :=
  document_graph
    [ JObj [("name", JStr "Alice"); ("label", JStr "person")];
      JObj [("name", JStr "Alice"); ("label", JNull)];
      JObj [("name", JStr EmptyString); ("label", JInt 5)];
      JObj [("name", JStr "Acme Corp")] ]
    (JArr [ JObj [("source", JStr "Zed"); ("target", JArr [])];
            JObj [("source", JStr "Alice"); ("target", JStr "Alice");
                  ("label", JStr "knows")] ]).

(** The requests of Step 2 for a list of entities: one for each entity whose
    label is PERSON, in the order of the list. *)
Definition personality_prompts (document_text : string) (ns : list json)
  : list prompt :=
  omap (λ n, if is_person n
             then Some (build_step2_prompt (name_of n) document_text)
             else None) ns.

(** The exceptions that leave a call of [call_gemini], and those that leave
    a step of the script after Step 1; [st.stop()] is not among them. *)
Definition escapes_call (e : exn) : Prop :=
  e = TypeError ∨ e = AttributeError ∨ e = ValueError ∨ e = RecursionError.

Definition uncaught (e : exn) : Prop :=
  e = KeyError ∨ escapes_call e.

(** The scenario with the service down at Step 4. *)
Definition stage4_down : env :=
  scripted [ gemini_returns stage1_entities;
             gemini_returns (traits "curious"); gemini_returns (traits "bold");
             gemini_returns (JArr scenario_edges) ].


(** Services whose answer at Step 1 is [null], a number, a list of names,
    and a list with an entity that has no name. *)
Definition service_answers_null : env := scripted [gemini_returns JNull].
Definition service_answers_number : env := scripted [gemini_returns (JInt 7)].
Definition service_answers_names : env :=
  scripted [gemini_returns (JArr [JStr "Alice"])].
Definition nameless_service : env :=
  scripted [gemini_returns (JArr [JObj [("label", JStr "LOCATION")]])].

(** No part of the graph is shown. *)
Definition graphless (us : list ui) : Prop :=
  Forall (λ u, is_render u = false) us.

(** ** Step 2 seen through the fields of an entity; more examples *)

(** What Step 2 does to an entity: every field but the personality is as it
    was; an entity labelled PERSON has a personality, any other entity is
    unchanged. *)
Definition carried_over (n n' : json) : Prop :=
  is_obj n' = true ∧
  (∀ k, k ≠ "personality" → field k n' = field k n) ∧
  (if is_person n then is_Some (field "personality" n') else n' = n).

(** Two entities, and four relationships of which the first and the third
    have an endpoint that is no entity. *)
Definition pair_nodes : list json :=
  [entity "Alice" "PERSON"; entity "Bob" "PERSON"].

Definition mixed_edges : list json :=
  [ stray_edge;
    JObj [("source", JStr "Alice"); ("label", JStr "met");
          ("target", JStr "Bob")];
    JObj [("source", JStr "Zed"); ("label", JStr "knows");
          ("target", JStr "Bob")];
    JObj [("source", JStr "Bob"); ("label", JStr "knows");
          ("target", JStr "Alice")] ].

(** Services of the scenario whose first personality call gets a response
    without candidates, and the answer [null]. *)
Definition personality_call_raises : env :=
  scripted [gemini_returns stage1_entities; gemini_without_candidates].

Definition personality_is_null : env :=
  scripted [gemini_returns stage1_entities; gemini_returns JNull].

(** * Properties *)

(** ** Loops and first occurrences *)

Lemma for_each_app {S A} (body : S → A → res S) (s : S) (l1 l2 : list A) :
  for_each body s (l1 ++ l2) = s' ← for_each body s l1; for_each body s' l2.
Proof.
  revert s. induction l1 as [|x l1 IH]; intros s; simpl; [done|].
  destruct (body s x) as [s'|e]; simpl; [apply IH|done].
Qed.

Lemma first_occurrence_snoc_old (l : list json) (x : json) (j : nat) :
  j < length l → first_occurrence (l ++ [x]) j = first_occurrence l j.
Proof.
  intros Hj. unfold first_occurrence.
  rewrite lookup_app_l by done.
  destruct (l !! j) as [n|]; [|done].
  by rewrite take_app_le by lia.
Qed.

Lemma first_occurrence_snoc_new (l : list json) (x : json) :
  first_occurrence (l ++ [x]) (length l) =
  truthy (name_of x) &&
  forallb (λ m, negb (same_name (name_of m) (name_of x))) l.
Proof.
  unfold first_occurrence.
  rewrite list_lookup_middle by done.
  by rewrite take_app_length.
Qed.

Lemma kept_snoc (l : list json) (x : json) :
  kept (l ++ [x]) =
  kept l ++ (if first_occurrence (l ++ [x]) (length l) then [x] else []).
Proof.
  unfold kept. rewrite length_app, Nat.add_1_r, seq_S, omap_app. simpl.
  f_equal.
  - apply list_omap_ext, Forall2_same_length_lookup_2; [done|].
    intros i a b Ha Hb. rewrite Ha in Hb; simplify_eq.
    apply lookup_seq in Ha as [-> Hlt]. simpl.
    rewrite first_occurrence_snoc_old by done.
    by rewrite lookup_app_l by done.
  - rewrite list_lookup_middle by done. by destruct (first_occurrence _ _).
Qed.

(** ** The node loop *)

Lemma py_hash_truthy v k : py_hash v = Ret k → truthy v = key_truthy k.
Proof. destruct v as [|[]| | | |]; intros; simplify_eq/=; done. Qed.

Lemma py_hash_hashable v : hashable v = true → ∃ k, py_hash v = Ret k.
Proof. destruct v; intros; simplify_eq/=; eauto. Qed.

Lemma assigned_id_snoc nds nd name :
  assigned_id (nds ++ [nd]) name =
  match assigned_id nds name with
  | Some i => Some i
  | None => if same_name (node_name nd) name then Some (node_id nd) else None
  end.
Proof.
  induction nds as [|nd' nds IH]; simpl; [done|].
  by destruct (same_name (node_name nd') name).
Qed.

Lemma same_name_hash a b k :
  py_hash b = Ret k → same_name a b = bool_decide (py_hash a = Ret k).
Proof. intros Hb. unfold same_name. by rewrite Hb. Qed.

Lemma forallb_elem_of {A} (f : A → bool) (l : list A) :
  forallb f l = true ↔ ∀ x, x ∈ l → f x = true.
Proof. rewrite forallb_forall. by setoid_rewrite list_elem_of_In. Qed.

Section NodeLoop.
Context `{Python}.

Lemma node_shape_inv x :
  node_shape x = true →
  ∃ b, x = JObj b ∧ hashable (name_of x) = true ∧
       py_get x "label" (JStr "ENTITY") = Ret (JStr (label_of "ENTITY" x)).
Proof.
  unfold node_shape, field_ok, name_of, label_of.
  destruct x as [| | | | |b]; try done. simpl.
  intros [Hn Hl]%andb_prop. exists b. split; [done|].
  split.
  - by destruct (assoc "name" b).
  - destruct (assoc "label" b) as [[]|]; simplify_eq/=; done.
Qed.

Lemma node_inv_skip l st x :
  node_inv l st →
  first_occurrence (l ++ [x]) (length l) = false →
  (truthy (name_of x) = true →
   ∃ k, py_hash (name_of x) = Ret k ∧ is_Some (node_name_to_id st !! k)) →
  node_inv (l ++ [x]) st.
Proof.
  intros [Hn Hc Hi Hs] Hfalse Hseen.
  split; rewrite ?kept_snoc, ?Hfalse, ?app_nil_r; try done.
  intros k. rewrite Hs. split.
  - intros (m & Hm & ?). exists m. split; [apply elem_of_app; by left|done].
  - intros (m & [Hm| ->%list_elem_of_singleton]%elem_of_app & Htm & Hmk);
      [eauto|].
    destruct (Hseen Htm) as (k' & Hk' & Hsome). rewrite Hk' in Hmk.
    simplify_eq. by apply Hs.
Qed.

Lemma node_inv_fresh l st x k :
  node_inv l st →
  first_occurrence (l ++ [x]) (length l) = true →
  py_hash (name_of x) = Ret k →
  node_name_to_id st !! k = None →
  node_inv (l ++ [x])
    {| elements_nodes :=
         elements_nodes st ++ [node_entry (node_id_counter st) x];
       node_name_to_id := <[k := node_id_counter st]> (node_name_to_id st);
       node_id_counter := S (node_id_counter st) |}.
Proof.
  intros [Hn Hc Hi Hs] Htrue Hk Hlk.
  assert (Ht : truthy (name_of x) = true).
  { rewrite first_occurrence_snoc_new in Htrue.
    by apply andb_prop in Htrue as [? _]. }
  split; rewrite ?kept_snoc, ?Htrue; simpl.
  - rewrite imap_app, Hn. simpl. by rewrite Nat.add_0_r, Hc.
  - rewrite length_app. simpl. lia.
  - intros name k' Hname. rewrite assigned_id_snoc. simpl.
    rewrite <-(Hi _ _ Hname), (same_name_hash _ _ _ Hname), Hk.
    destruct (decide (k = k')) as [->|Hne].
    + rewrite lookup_insert_eq, Hlk. by rewrite bool_decide_eq_true_2.
    + rewrite lookup_insert_ne by done.
      rewrite bool_decide_eq_false_2 by congruence.
      by destruct (node_name_to_id st !! k').
  - intros k'. rewrite lookup_insert_is_Some, Hs. split.
    + intros [<-|[_ (m & Hm & ?)]].
      * exists x. split_and!; [|done|done].
        apply elem_of_app; right. by apply list_elem_of_singleton.
      * exists m. split; [apply elem_of_app; by left|done].
    + intros (m & [Hm| ->%list_elem_of_singleton]%elem_of_app & Htm & Hmk).
      * destruct (decide (k = k')); [by left|right; eauto].
      * left. congruence.
Qed.

Lemma add_node_spec l st x :
  node_shape x = true → node_inv l st →
  ∃ st', add_node st x = Ret st' ∧ node_inv (l ++ [x]) st'.
Proof.
  intros (b & -> & Hhash & Hlabel)%node_shape_inv Hinv.
  pose proof Hinv as [Hn Hc Hi Hs].
  unfold add_node.
  change (py_get (JObj b) "name" JNull) with (Ret (name_of (JObj b))).
  simpl mbind at 1. unfold res_bind at 1.
  pose proof (first_occurrence_snoc_new l (JObj b)) as Hfirst.
  destruct (truthy (name_of (JObj b))) eqn:Ht; simpl negb; cbv iota.
  2:{ exists st. split; [done|]. apply node_inv_skip; [done|done|intros; congruence]. }
  destruct (py_hash_hashable _ Hhash) as [k Hk]. rewrite Hk.
  simpl mbind at 1. unfold res_bind at 1.
  rewrite andb_true_l in Hfirst.
  destruct (node_name_to_id st !! k) as [i|] eqn:Hlk.
  - exists st. split; [done|]. apply node_inv_skip; [done| |].
    + rewrite Hfirst. apply not_true_is_false. intros Hall.
      rewrite forallb_elem_of in Hall.
      destruct (proj1 (Hs k)) as (m & Hm & _ & Hmk); [eauto|].
      specialize (Hall m Hm). rewrite (same_name_hash _ _ k Hk) in Hall.
      by rewrite bool_decide_eq_true_2 in Hall.
    + intros _. exists k. by rewrite Hlk.
  - assert (Htrue : first_occurrence (l ++ [JObj b]) (length l) = true).
    { rewrite Hfirst. apply forallb_elem_of.
      intros m Hm. rewrite (same_name_hash _ _ k Hk).
      apply negb_true_iff, bool_decide_eq_false. intros Hmk.
      assert (is_Some (node_name_to_id st !! k)) as [? ?]; [|congruence].
      apply Hs. exists m. split_and!; [done| |done].
      by rewrite (py_hash_truthy _ _ Hmk), <-(py_hash_truthy _ _ Hk). }
    pose proof (node_inv_fresh _ _ _ _ Hinv Htrue Hk Hlk) as Hnew.
    simpl in Hlabel. injection Hlabel as Hlabel. rewrite Hlabel.
    unfold node_entry in Hnew. simpl in Hnew. simpl.
    destruct (String.eqb _ "PERSON"); simpl; eauto.
Qed.

Lemma node_inv_init : node_inv [] node_loop_init.
Proof.
  split; try done.
  intros k. simpl. rewrite lookup_empty. split; [by intros [? ?]|].
  by intros (m & ?%elem_of_nil & _).
Qed.

Lemma node_loop_spec l :
  Forall (λ x, node_shape x = true) l →
  ∃ st, for_each add_node node_loop_init l = Ret st ∧ node_inv l st.
Proof.
  induction l as [|x l IH] using rev_ind; intros Hl.
  - exists node_loop_init. split; [done|apply node_inv_init].
  - apply Forall_app in Hl as [Hl Hx%Forall_inv].
    destruct (IH Hl) as (st & Hrun & Hinv).
    destruct (add_node_spec l st x Hx Hinv) as (st' & Hstep & Hinv').
    exists st'. split; [|done].
    rewrite for_each_app, Hrun. simpl. by rewrite Hstep.
Qed.
End NodeLoop.

(** ** The edge loop *)

Section EdgeLoop.
Context `{Python}.

Lemma edge_shape_inv e :
  edge_shape e = true →
  ∃ b, e = JObj b ∧ hashable (source_of e) = true ∧
       hashable (target_of e) = true ∧
       py_get e "label" (JStr "RELATED_TO") =
         Ret (JStr (label_of "RELATED_TO" e)).
Proof.
  unfold edge_shape, field_ok, source_of, target_of, label_of.
  destruct e as [| | | | |b]; try done. simpl.
  intros [[Hs Ht]%andb_prop Hl]%andb_prop. exists b. split; [done|].
  split_and!.
  - by destruct (assoc "source" b).
  - by destruct (assoc "target" b).
  - destruct (assoc "label" b) as [[]|]; simplify_eq/=; done.
Qed.

Lemma edge_inv_skip nds es st e :
  edge_inv nds es st → accepted nds e = false → edge_inv nds (es ++ [e]) st.
Proof.
  intros [He Hc Hl] Hacc. split; [|done|done].
  rewrite filter_app, filter_cons_False, filter_nil, app_nil_r by congruence.
  done.
Qed.

Lemma edge_inv_accept nds es st e :
  edge_inv nds es st → accepted nds e = true →
  edge_inv nds (es ++ [e])
    {| elements_edges :=
         elements_edges st ++ [edge_entry nds (edge_id_counter st) e];
       all_edge_labels :=
         {[ str_upper (label_of "RELATED_TO" e) ]} ∪ all_edge_labels st;
       edge_id_counter := S (edge_id_counter st) |}.
Proof.
  intros [He Hc Hl] Hacc. split; simpl.
  - rewrite filter_app, filter_cons_True, filter_nil by done.
    rewrite imap_app, <-He. simpl. rewrite Nat.add_0_r, Hc, He.
    by rewrite length_imap.
  - rewrite length_app. simpl. lia.
  - rewrite fmap_app, list_to_set_app_L, Hl. simpl.
    by rewrite (right_id_L ∅ (∪)), (comm_L (∪)).
Qed.

Lemma add_edge_spec nds ids es st e :
  (∀ name k, py_hash name = Ret k → ids !! k = assigned_id nds name) →
  edge_shape e = true → edge_inv nds es st →
  ∃ st', add_edge ids st e = Ret st' ∧ edge_inv nds (es ++ [e]) st'.
Proof.
  intros Hids (b & -> & Hsrc & Htgt & Hlabel)%edge_shape_inv Hinv.
  destruct (py_hash_hashable _ Hsrc) as [ks Hks].
  destruct (py_hash_hashable _ Htgt) as [kt Hkt].
  pose proof (Hids _ _ Hks) as Hs. pose proof (Hids _ _ Hkt) as Ht.
  unfold add_edge.
  change (py_get (JObj b) "source" JNull) with (Ret (source_of (JObj b))).
  change (py_get (JObj b) "target" JNull) with (Ret (target_of (JObj b))).
  simpl in Hlabel. injection Hlabel as Hlabel.
  simpl. rewrite Hlabel. simpl. rewrite Hks. simpl. rewrite Hs.
  destruct (assigned_id nds (source_of (JObj b))) as [sid|] eqn:Hsid.
  2:{ exists st. split; [done|]. apply edge_inv_skip; [done|].
      unfold accepted. rewrite Hsid.
      rewrite bool_decide_eq_false_2; [done|]. by intros [? ?]. }
  rewrite Hkt. simpl. rewrite Ht.
  destruct (assigned_id nds (target_of (JObj b))) as [tid|] eqn:Htid.
  2:{ exists st. split; [done|]. apply edge_inv_skip; [done|].
      unfold accepted. rewrite Htid, andb_comm.
      rewrite bool_decide_eq_false_2; [done|]. by intros [? ?]. }
  eexists. split; [done|].
  assert (Hacc : accepted nds (JObj b) = true).
  { unfold accepted. rewrite Hsid, Htid.
    by rewrite !bool_decide_eq_true_2 by eauto. }
  pose proof (edge_inv_accept _ _ _ _ Hinv Hacc) as Hnew.
  unfold edge_entry in Hnew. by rewrite Hsid, Htid in Hnew.
Qed.

Lemma edge_loop_spec nds ids es :
  (∀ name k, py_hash name = Ret k → ids !! k = assigned_id nds name) →
  Forall (λ e, edge_shape e = true) es →
  ∃ st, for_each (add_edge ids) edge_loop_init es = Ret st ∧
        edge_inv nds es st.
Proof.
  intros Hids. induction es as [|e es IH] using rev_ind; intros Hes.
  - exists edge_loop_init. by split.
  - apply Forall_app in Hes as [Hes He%Forall_inv].
    destruct (IH Hes) as (st & Hrun & Hinv).
    destruct (add_edge_spec _ _ _ _ _ Hids He Hinv) as (st' & Hstep & Hinv').
    exists st'. split; [|done].
    rewrite for_each_app, Hrun. simpl. by rewrite Hstep.
Qed.

(** What the projector returns on a well-formed graph. *)
Lemma format_spec ns es :
  Forall (λ n, node_shape n = true) ns →
  Forall (λ e, edge_shape e = true) es →
  ∃ nl el,
    format_for_st_link_analysis (document_graph ns (JArr es)) =
      Ret ({| nodes := elements_nodes nl; edges := elements_edges el |},
           node_styles, all_edge_labels el) ∧
    node_inv ns nl ∧ edge_inv (elements_nodes nl) es el.
Proof.
  intros Hns Hes.
  destruct (node_loop_spec ns Hns) as (nl & Hnl & Hninv).
  destruct (edge_loop_spec (elements_nodes nl) (node_name_to_id nl) es
              (inv_ids _ _ Hninv) Hes) as (el & Hel & Heinv).
  exists nl, el. split; [|done].
  unfold format_for_st_link_analysis, document_graph. simpl.
  rewrite Hnl. simpl. by rewrite Hel.
Qed.
End EdgeLoop.

(** ** First occurrences and projected entries *)

Lemma kept_elem_of l n :
  n ∈ kept l → n ∈ l ∧ truthy (name_of n) = true.
Proof.
  unfold kept. intros (j & _ & Hj)%list_elem_of_omap.
  unfold first_occurrence in Hj.
  destruct (l !! j) as [m|] eqn:Hm; [|done].
  destruct (truthy (name_of m)) eqn:Ht; simpl in Hj; [|done].
  destruct (forallb _ _); simplify_eq.
  split; [by eapply list_elem_of_lookup_2|done].
Qed.

Lemma kept_keys_NoDup l :
  NoDup ((λ n, py_hash (name_of n)) <$> kept l).
Proof.
  induction l as [|x l IH] using rev_ind; [constructor|].
  rewrite kept_snoc, first_occurrence_snoc_new.
  destruct (truthy (name_of x)); simpl; [|by rewrite app_nil_r].
  destruct (forallb _ l) eqn:Hall; [|by rewrite app_nil_r].
  rewrite fmap_app. apply NoDup_app. split_and!; [done| |apply NoDup_singleton].
  intros k (m & -> & [Hm _]%kept_elem_of)%list_elem_of_fmap
           Heq%list_elem_of_singleton.
  rewrite forallb_elem_of in Hall. specialize (Hall m Hm).
  unfold same_name in Hall. by rewrite bool_decide_eq_true_2 in Hall.
Qed.

Section EntryLists.
Context `{Python}.

Lemma node_entries_ids l :
  node_id <$> imap (λ j, node_entry (S j)) l = seq 1 (length l).
Proof.
  rewrite fmap_imap. rewrite <-fmap_S_seq, <-(imap_seq_0 l S).
  by apply imap_ext.
Qed.

Lemma node_entries_names l :
  node_name <$> imap (λ j, node_entry (S j)) l = name_of <$> l.
Proof.
  rewrite fmap_imap, <-imap_const. by apply imap_ext.
Qed.

Lemma edge_entries_ids nds l :
  edge_id <$> imap (λ j, edge_entry nds (S j)) l =
  (λ i, "e" +:+ pretty i) <$> seq 1 (length l).
Proof.
  rewrite fmap_imap, <-fmap_S_seq, <-list_fmap_compose.
  rewrite <-(imap_seq_0 l). by apply imap_ext.
Qed.
End EntryLists.

(** ** The projector: claims *)

(** Counterexample to C3: the node list holds one object, whose label is
    [null]; line 146 calls [.upper()] on it and the projector raises
    [AttributeError]. *)
Lemma projection_raises_on_null_label :
  Forall (λ n, is_obj n = true) [JObj [("name", JStr "Alice"); ("label", JNull)]] ∧
  format_for_st_link_analysis (H := example_runtime) null_label_graph
  = Raise AttributeError.
Proof. split; [by repeat constructor|reflexivity]. Qed.

Section Claims.
Context `{Python}.

(** C3, amended: when every node and every edge is an object whose label, if
    present, is a string and whose name, source and target, if present, are
    scalars, the projector returns without raising; every node and edge of
    the result is the entry of an input node or edge, in which a missing
    label reads [ENTITY] or [RELATED_TO] and a missing personality reads the
    empty string. *)
Theorem projection_total_on_typed_fields (ns es : list json) :
Forall (λ n, node_shape n = true) ns →
Forall (λ e, edge_shape e = true) es →
∃ g labels,
  format_for_st_link_analysis (document_graph ns (JArr es))
    = Ret (g, node_styles, labels) ∧
  (∀ nd, nd ∈ nodes g → ∃ n, n ∈ ns ∧ nd = node_entry (node_id nd) n) ∧
  (∀ ed, ed ∈ edges g → ∃ e i, e ∈ es ∧ ed = edge_entry (nodes g) i e).
Proof.
intros Hns Hes.
destruct (format_spec ns es Hns Hes) as (nl & el & Hrun & Hn & He).
eexists _, _. split; [exact Hrun|]. simpl. split.
- intros nd. rewrite (inv_nodes _ _ Hn).
  intros (j & n & -> & Hj)%elem_of_lookup_imap.
  exists n. split; [|done].
  by apply list_elem_of_lookup_2, kept_elem_of in Hj as [? _].
- intros ed. rewrite (inv_edges _ _ _ He).
  intros (j & e & -> & Hj)%elem_of_lookup_imap.
  exists e, (S j). split; [|done].
  by apply list_elem_of_lookup_2, list_elem_of_filter in Hj as [_ ?].
Qed.

(** C5: on a list of nodes with duplicate or empty names, the projector
    keeps exactly the first occurrence of each non-empty name, in the order
    of the list, and gives the kept nodes the ids 1, 2, ...; a later
    duplicate or an empty name gets no id and no node.  Names are compared
    as dictionary keys, which on strings is equality. *)
Theorem projection_ids_first_occurrences (ns es : list json) :
Forall (λ n, node_shape n = true) ns →
Forall (λ e, edge_shape e = true) es →
∃ g styles labels,
  format_for_st_link_analysis (document_graph ns (JArr es))
    = Ret (g, styles, labels) ∧
  nodes g = imap (λ j, node_entry (S j)) (kept ns) ∧
  node_id <$> nodes g = seq 1 (length (nodes g)) ∧
  NoDup ((λ nd, py_hash (node_name nd)) <$> nodes g) ∧
  (∀ nd, nd ∈ nodes g → truthy (node_name nd) = true) ∧
  (∀ n, n ∈ ns → truthy (name_of n) = true →
        is_Some (assigned_id (nodes g) (name_of n))).
Proof.
intros Hns Hes.
destruct (format_spec ns es Hns Hes) as (nl & el & Hrun & Hn & He).
eexists _, _, _. split; [exact Hrun|]. simpl.
pose proof (inv_nodes _ _ Hn) as Hnodes. rewrite Hnodes.
split_and!.
- done.
- by rewrite node_entries_ids, length_imap.
- replace (_ <$> _) with ((λ n, py_hash (name_of n)) <$> kept ns);
    [apply kept_keys_NoDup|].
  rewrite fmap_imap, <-imap_const. by apply imap_ext.
- intros nd (j & n & -> & Hj)%elem_of_lookup_imap. simpl.
  by apply list_elem_of_lookup_2, kept_elem_of in Hj as [_ ?].
- intros n Hin Ht.
  assert (hashable (name_of n) = true) as [k Hk]%py_hash_hashable.
  { rewrite Forall_forall in Hns.
    by destruct (node_shape_inv n (Hns n Hin)) as (? & _ & ? & _). }
  rewrite <-Hnodes, <-(inv_ids _ _ Hn _ _ Hk).
  apply (inv_seen _ _ Hn). eauto.
Qed.

(** C6: the edges of the result are the relationships whose source and
    target both have an assigned node id, in input order, numbered [e1],
    [e2], ... without gaps; a rejected relationship takes no number, and the
    result has at most as many edges as there are relationships. *)
Theorem projection_edge_ids_gap_free (ns es : list json) :
Forall (λ n, node_shape n = true) ns →
Forall (λ e, edge_shape e = true) es →
∃ g styles labels,
  format_for_st_link_analysis (document_graph ns (JArr es))
    = Ret (g, styles, labels) ∧
  edges g = imap (λ j, edge_entry (nodes g) (S j))
                 (filter (λ e, accepted (nodes g) e = true) es) ∧
  edge_id <$> edges g = (λ i, "e" +:+ pretty i) <$> seq 1 (length (edges g)) ∧
  length (edges g) ≤ length es.
Proof.
intros Hns Hes.
destruct (format_spec ns es Hns Hes) as (nl & el & Hrun & Hn & He).
eexists _, _, _. split; [exact Hrun|]. simpl.
pose proof (inv_edges _ _ _ He) as Hedges. rewrite Hedges.
split_and!.
- done.
- by rewrite edge_entries_ids, length_imap.
- rewrite length_imap. apply length_filter.
Qed.

(** C9: on the four nodes and two relationships of the end-to-end scenario
    the projector yields nodes 1 to 4 in the listed order, edges [e1]
    labelled [WORKS_AT] and [e2] labelled [MET], and a personality on the
    two [PERSON] nodes only; for any runtime whose [str.upper] is the ASCII
    one on ASCII text, and any two personality texts. *)
Theorem projection_of_scenario (p1 p2 : string) :
agrees_on_ascii →
format_for_st_link_analysis
  (document_graph (scenario_nodes p1 p2) (JArr scenario_edges))
= Ret (scenario_render p1 p2, node_styles, {[ "WORKS_AT"; "MET" ]}).
Proof.
intros Hup.
assert (Hns : Forall (λ n, node_shape n = true) (scenario_nodes p1 p2))
  by (by repeat constructor).
assert (Hes : Forall (λ e, edge_shape e = true) scenario_edges)
  by (by repeat constructor).
destruct (format_spec _ _ Hns Hes) as (nl & el & Hrun & Hn & He).
rewrite Hrun.
pose proof (inv_nodes _ _ Hn) as Hnodes.
pose proof (inv_edges _ _ _ He) as Hedges.
pose proof (inv_labels _ _ _ He) as Hlabels.
assert (Hk : kept (scenario_nodes p1 p2) = scenario_nodes p1 p2)
  by reflexivity.
rewrite Hk in Hnodes. unfold scenario_nodes in Hnodes.
cbn [imap] in Hnodes. unfold node_entry, label_of, compose in Hnodes.
cbn [field assoc String.eqb Ascii.eqb Bool.eqb] in Hnodes.
rewrite !Hup in Hnodes by reflexivity.
change (ascii_upper "PERSON") with "PERSON" in Hnodes.
change (ascii_upper "ORGANIZATION") with "ORGANIZATION" in Hnodes.
change (ascii_upper "LOCATION") with "LOCATION" in Hnodes.
cbn in Hnodes.
rewrite Hnodes in Hedges.
match type of Hedges with _ = imap _ (filter ?P ?l) =>
  assert (Hf : filter P l = l) by reflexivity; rewrite Hf in Hedges end.
unfold scenario_edges in Hedges.
cbn [imap] in Hedges. unfold edge_entry, label_of, compose in Hedges.
cbn [field assoc String.eqb Ascii.eqb Bool.eqb] in Hedges.
rewrite !Hup in Hedges by reflexivity.
change (ascii_upper "works_at") with "WORKS_AT" in Hedges.
change (ascii_upper "met") with "MET" in Hedges.
cbn in Hedges.
rewrite Hlabels, Hnodes, Hedges. unfold scenario_render. simpl.
do 2 f_equal.
Qed.

End Claims.

(** ** Strings and fences *)

#[local] Arguments String.append !_ _ / : simpl nomatch.

Lemma str_app_cons (c : ascii) (a b : string) :
  String c a +:+ b = String c (a +:+ b).
Proof. reflexivity. Qed.

Lemma str_length_app (a b : string) :
  String.length (a +:+ b) = String.length a + String.length b.
Proof. induction a as [|c a IH]; simpl; [done|by f_equal]. Qed.

Lemma str_app_assoc (a b c : string) : (a +:+ b) +:+ c = a +:+ b +:+ c.
Proof. induction a as [|x a IH]; simpl; [done|by f_equal]. Qed.

Lemma str_app_nil_r (a : string) : a +:+ EmptyString = a.
Proof. induction a as [|x a IH]; simpl; [done|by f_equal]. Qed.

Lemma str_drop_app (a b : string) : str_drop (String.length a) (a +:+ b) = b.
Proof. induction a as [|c a IH]; simpl; [done|apply IH]. Qed.

Lemma str_take_app (a b : string) : str_take (String.length a) (a +:+ b) = a.
Proof.
  induction a as [|c a IH]; simpl; [by destruct b|by f_equal].
Qed.

Lemma str_take_drop (n : nat) (s : string) : str_take n s +:+ str_drop n s = s.
Proof.
  revert s. induction n as [|n IH]; intros [|c s]; simpl; try done.
  by f_equal.
Qed.

Lemma str_take_length (n : nat) (s : string) :
  n ≤ String.length s → String.length (str_take n s) = n.
Proof.
  revert s. induction n as [|n IH]; intros [|c s] Hn; simpl in *; try lia.
  f_equal. apply IH. lia.
Qed.

Lemma str_prefix_refl (p : string) : String.prefix p p = true.
Proof. induction p as [|c p IH]; simpl; [done|]. by destruct (ascii_dec c c). Qed.

Lemma startswith_app (p s : string) : startswith (p +:+ s) p = true.
Proof.
  unfold startswith. induction p as [|c p IH]; simpl; [by destruct s|].
  by destruct (ascii_dec c c).
Qed.

Lemma startswith_inv (s p : string) :
  startswith s p = true → s = p +:+ str_drop (String.length p) s.
Proof.
  unfold startswith. revert s.
  induction p as [|c p IH]; intros [|d s]; simpl; try done.
  destruct (ascii_dec c d) as [->|]; [|done].
  intros Hp. by rewrite <-(IH s Hp).
Qed.

Lemma endswith_app (s p : string) : endswith (s +:+ p) p = true.
Proof.
  unfold endswith. rewrite str_length_app.
  replace (String.length s + String.length p - String.length p)
    with (String.length s) by lia.
  rewrite str_drop_app. apply String.eqb_refl.
Qed.

Lemma endswith_inv (s p : string) :
  endswith s p = true →
  s = str_take (String.length s - String.length p) s +:+ p.
Proof.
  unfold endswith. intros Heq%String.eqb_eq.
  set (n := String.length s - String.length p) in *.
  transitivity (str_take n s +:+ str_drop n s);
    [by rewrite str_take_drop|by rewrite Heq].
Qed.

Lemma slice_until_last_app (s p : string) :
  slice_until_last (String.length p) (s +:+ p) = s.
Proof.
  unfold slice_until_last. rewrite str_length_app.
  replace (String.length s + String.length p - String.length p)
    with (String.length s) by lia.
  apply str_take_app.
Qed.

Lemma strip_leading_fence_open (s : string) :
  strip_leading_fence (fence_open +:+ s) = s.
Proof.
  unfold strip_leading_fence. rewrite startswith_app.
  apply (str_drop_app fence_open).
Qed.

Lemma strip_trailing_fence_close (s : string) :
  strip_trailing_fence (s +:+ fence_close) = s.
Proof.
  unfold strip_trailing_fence. rewrite endswith_app.
  apply (slice_until_last_app s fence_close).
Qed.

Lemma strip_markdown_fenced (t : string) :
  strip_markdown (fenced t) = newline +:+ t +:+ newline.
Proof.
  unfold strip_markdown, fenced. rewrite strip_leading_fence_open.
  rewrite <-!str_app_assoc. rewrite strip_trailing_fence_close.
  by rewrite !str_app_assoc.
Qed.

(** C10: the two fences are stripped independently.  The seven characters
    of a leading [```json] are removed whatever follows, and the result is
    the rest of the text when no closing fence ends it; a trailing [```] is
    removed, and the result is the text before it when no leading fence
    opens it; a text that opens with a bare [```] keeps it through the
    first step, and still starts with it after both steps when at least
    three characters follow. *)
Theorem fences_stripped_independently :
  (∀ s, strip_leading_fence (fence_open +:+ s) = s ∧
        (endswith s fence_close = false →
         strip_markdown (fence_open +:+ s) = s)) ∧
  (∀ s, strip_trailing_fence (s +:+ fence_close) = s ∧
        (startswith (s +:+ fence_close) fence_open = false →
         strip_markdown (s +:+ fence_close) = s)) ∧
  (∀ s, startswith s "json" = false →
        strip_leading_fence (fence_close +:+ s) = fence_close +:+ s ∧
        (3 ≤ String.length s →
         startswith (strip_markdown (fence_close +:+ s)) fence_close = true)).
Proof.
  split_and!.
  - intros s. split; [apply strip_leading_fence_open|].
    intros Hs. unfold strip_markdown.
    rewrite strip_leading_fence_open. unfold strip_trailing_fence.
    by rewrite Hs.
  - intros s. split; [apply strip_trailing_fence_close|].
    intros Hs. unfold strip_markdown, strip_leading_fence.
    rewrite Hs. apply strip_trailing_fence_close.
  - intros s Hs.
    assert (Hno : startswith (fence_close +:+ s) fence_open = false).
    { unfold startswith in *. simpl.
      repeat (destruct (ascii_dec _ _); [|done]). exact Hs. }
    assert (Hlead : strip_leading_fence (fence_close +:+ s)
                    = fence_close +:+ s).
    { unfold strip_leading_fence. by rewrite Hno. }
    split; [done|]. intros Hlen.
    unfold strip_markdown. rewrite Hlead.
    unfold strip_trailing_fence.
    destruct (endswith _ _); [|apply startswith_app].
    unfold slice_until_last. rewrite str_length_app.
    replace (String.length fence_close + String.length s - 3)
      with (3 + (String.length s - 3)) by (simpl; lia).
    simpl. unfold startswith. simpl.
    by destruct (str_take _ s).
Qed.

(** C10 on the text [[1]]. *)
Lemma fences_stripped_independently_witness :
  strip_markdown (fence_open +:+ "[1]") = "[1]" ∧
  strip_markdown ("[1]" +:+ fence_close) = "[1]" ∧
  strip_leading_fence (fence_close +:+ "[1]") = fence_close +:+ "[1]".
Proof.
  destruct fences_stripped_independently as (Ha & Hb & Hc).
  split_and!.
  - by apply (Ha "[1]").
  - by apply (Hb "[1]").
  - by apply (Hc "[1]").
Defined.

(** ** The script *)

Lemma script_bind_ret {A B} (m : script A) (k : A → script B) w a w' :
  m w = (Ret a, w') → (m ≫= k) w = k a w'.
Proof. intros Hm. unfold mbind, script_bind. by rewrite Hm. Qed.

Lemma script_bind_raise {A B} (m : script A) (k : A → script B) w e w' :
  m w = (Raise e, w') → (m ≫= k) w = (Raise e, w').
Proof. intros Hm. unfold mbind, script_bind. by rewrite Hm. Qed.

Ltac script_simpl :=
  unfold mbind, script_bind, mret, script_ret, show, raise, st_stop, lift in *;
  simpl in *.

Section CallFacts.
Context `{Python} (E : env).

Lemma parse_model_output_world s r w w' :
  parse_model_output s w = (r, w') →
  posts w' = posts w ∧
  ((screen w' = screen w ∧ ((∃ v, r = Ret (v, None)) ∨ ∃ e, r = Raise e)) ∨
   (screen w' = screen w ++ [st_error (RawTextNotJson (strip_markdown s))] ∧
    r = Ret (JNull, Some FailedToDecodeJson))).
Proof.
  unfold parse_model_output, py_json_loads.
  destruct (json_loads (strip_markdown s)) as [v|];
    [|destruct (json_failure (strip_markdown s))];
    unfold mbind, script_bind, mret, script_ret, show, raise; simpl;
    intros; simplify_eq/=; (split; [done|]); eauto.
Qed.

(** A call sends exactly one request; it writes to the page only when the
    candidate text is not JSON. *)
Lemma call_gemini_world p r w w' :
  call_gemini E p w = (r, w') →
  posts w' = posts w ++ [p] ∧
  (screen w' = screen w ∨
   (∃ raw, screen w' = screen w ++ [st_error (RawTextNotJson raw)]) ∧
   r = Ret (JNull, Some FailedToDecodeJson)).
Proof.
  unfold call_gemini, requests_post. unfold mbind at 1, script_bind.
  destruct (oracle E (length (posts w)) p) as [|status text].
  { script_simpl. intros; simplify_eq/=. auto. }
  destruct (negb (status =? 200)%Z).
  { script_simpl. intros; simplify_eq/=. auto. }
  unfold py_json_loads.
  destruct (json_loads text) as [response_json|];
    [|destruct (json_failure text); script_simpl; intros; simplify_eq/=; auto].
  destruct (candidate_text response_json) as [[]|[]];
    try (script_simpl; intros; simplify_eq/=; auto; fail).
  intros (Hp & [[Hs _]|[Hs ->]])%parse_model_output_world; simpl in *.
  - auto.
  - split; [done|]. right. eauto.
Qed.
End CallFacts.

Section Stage1.
Context `{Python} (E : env).

(** C1: when the call of Step 1 returns an error, the script stops with
    the error shown by [st.error], after that single request, and nothing of
    the graph is shown; when it returns the empty list, the script stops
    before Step 2 with the warning that no entities were found, and nothing
    else on the page. *)
Theorem stage1_failure_aborts (document_text : string) :
  (∀ parsed e w1,
     call_gemini E (build_step1_prompt document_text) initial_world
       = (Ret (parsed, Some e), w1) →
     run E document_text =
       (Raise StopException,
        {| posts := [build_step1_prompt document_text];
           screen := screen w1 ++ [st_error (ErrorInStep1 e)] |}) ∧
     Forall (λ u, is_render u = false)
            (screen w1 ++ [st_error (ErrorInStep1 e)])) ∧
  (∀ w1,
     call_gemini E (build_step1_prompt document_text) initial_world
       = (Ret (JArr [], None), w1) →
     run E document_text =
       (Raise StopException,
        {| posts := [build_step1_prompt document_text];
           screen := [st_warning NoEntitiesFound] |})).
Proof.
  split.
  - intros parsed e w1 Hcall.
    destruct (call_gemini_world E _ _ _ _ Hcall) as [Hposts Hscreen].
    split.
    + unfold run, pipeline, step1.
      rewrite (script_bind_raise _ _ initial_world StopException
                 {| posts := posts w1;
                    screen := screen w1 ++ [st_error (ErrorInStep1 e)] |}).
      * by rewrite Hposts.
      * by rewrite (script_bind_ret _ _ _ _ _ Hcall).
    + destruct Hscreen as [->|[[raw ->] _]]; by repeat constructor.
  - intros w1 Hcall.
    destruct (call_gemini_world E _ _ _ _ Hcall) as [Hposts Hscreen].
    assert (Hs : screen w1 = []).
    { destruct Hscreen as [->|[_ ?]]; [done|simplify_eq]. }
    unfold run, pipeline, step1.
    rewrite (script_bind_raise _ _ initial_world StopException
               {| posts := posts w1;
                  screen := screen w1 ++ [st_warning NoEntitiesFound] |}).
    + by rewrite Hposts, Hs.
    + by rewrite (script_bind_ret _ _ _ _ _ Hcall).
Qed.
End Stage1.

Section Stage2.
Context `{Python} (E : env).

Lemma analyze_other document_text acc node w :
  is_obj node = true → is_person node = false →
  analyze_personality E document_text acc node w = (Ret (acc ++ [node]), w).
Proof.
  destruct node as [| | | | |b]; try done. intros _ Hp.
  unfold analyze_personality. unfold is_person in Hp. simpl in *.
  script_simpl. by rewrite Hp.
Qed.

Lemma analyze_person document_text acc node name w parsed error w' :
  is_person node = true → field "name" node = Some name →
  call_gemini E (build_step2_prompt name document_text) w
    = (Ret (parsed, error), w') →
  (error = None → is_obj parsed = true) →
  analyze_personality E document_text acc node w =
    (Ret (acc ++ [with_personality node
                    (match error with
                     | Some _ => JStr EmptyString
                     | None => default (JStr EmptyString) (field "personality" parsed)
                     end)]), w').
Proof.
  destruct node as [| | | | |b]; try done. intros Hp Hn Hcall Hobj.
  unfold analyze_personality. unfold is_person in Hp. simpl in *.
  script_simpl. rewrite Hp, Hn, Hcall.
  destruct error as [e|]; [done|].
  specialize (Hobj eq_refl). by destruct parsed.
Qed.

End Stage2.

Section Stages.
Context `{Python} (E : env).








End Stages.

Section Screens.
Context `{Python} (E : env).




End Screens.

Lemma assigned_id_Some nds name i :
  assigned_id nds name = Some i →
  ∃ nd, nd ∈ nds ∧ node_id nd = i ∧ same_name (node_name nd) name = true.
Proof.
  induction nds as [|nd nds IH]; simpl; [done|].
  destruct (same_name (node_name nd) name) eqn:Hs.
  - intros; simplify_eq. exists nd. split_and!; [by left|done|done].
  - intros (nd' & ? & ? & ?)%IH. exists nd'. split_and!; [by right|done|done].
Qed.

Section Stage3.
Context `{Python} (E : env).

End Stage3.

(** ** The decoder of the examples *)

Module DecoderFacts.
Import Decoder.

(** *** A line break appended to the input *)

Lemma skip_ws_app s c r t :
  skip_ws s = String c r → skip_ws (s +:+ t) = String c (r +:+ t).
Proof.
  induction s as [|a s IH]; simpl; [done|].
  destruct (is_ws a) eqn:Ha; [auto|]. intros; by simplify_eq.
Qed.

Lemma skip_ws_newline s : skip_ws s = EmptyString → skip_ws (s +:+ newline) = EmptyString.
Proof.
  induction s as [|a s IH]; simpl; [done|]. by destruct (is_ws a).
Qed.

Lemma digits_ext acc s n r :
  digits acc s = (n, r) → digits acc (s +:+ newline) = (n, r +:+ newline).
Proof.
  revert acc. induction s as [|a s IH]; intros acc; simpl.
  - intros; by simplify_eq.
  - destruct (digit a); [apply IH|]. intros; by simplify_eq.
Qed.

Lemma starts_fraction_ext r :
  starts_fraction (r +:+ newline) = starts_fraction r.
Proof. by destruct r. Qed.

Lemma unsigned_ext s n r :
  unsigned s = Some (n, r) →
  unsigned (s +:+ newline) = Some (n, r +:+ newline).
Proof.
  destruct s as [|a s]; simpl; [done|].
  destruct (digit a) as [d|]; [|done].
  destruct (d =? 0)%Z.
  - rewrite starts_fraction_ext. destruct (starts_fraction s); [done|].
    intros; by simplify_eq.
  - destruct (digits d s) as [m rest] eqn:Hd.
    rewrite (digits_ext _ _ _ _ Hd), starts_fraction_ext.
    destruct (starts_fraction rest); [done|]. intros; by simplify_eq.
Qed.

Lemma number_ext s n r :
  number s = Some (n, r) → number (s +:+ newline) = Some (n, r +:+ newline).
Proof.
  destruct s as [|a s]; [done|]. unfold number.
  change (String a s +:+ newline) with (String a (s +:+ newline)).
  cbv iota.
  destruct (Ascii.eqb a "-").
  - destruct (unsigned s) as [[m rest]|] eqn:Hu; [|done].
    rewrite (unsigned_ext _ _ _ Hu). intros; by simplify_eq.
  - apply (unsigned_ext (String a s)).
Qed.

Lemma string_body_ext escaped s body r t :
  string_body escaped s = Some (body, r) →
  string_body escaped (s +:+ t) = Some (body, r +:+ t).
Proof.
  revert escaped body r.
  induction s as [|a s IH]; intros escaped body r; simpl; [done|].
  destruct escaped.
  - destruct (unescape a); [|done].
    destruct (string_body false s) as [[b rest]|] eqn:Hb; [|done].
    rewrite (IH _ _ _ Hb). intros; by simplify_eq.
  - destruct (Ascii.eqb a quote); [intros; by simplify_eq|].
    destruct (Ascii.eqb a backslash); [apply IH|].
    destruct (nat_of_ascii a <? 32); [done|].
    destruct (string_body false s) as [[b rest]|] eqn:Hb; [|done].
    rewrite (IH _ _ _ Hb). intros; by simplify_eq.
Qed.

Lemma literal_ext p s t :
  String.prefix p s = true →
  String.prefix p (s +:+ t) = true ∧
  str_drop (String.length p) (s +:+ t) = str_drop (String.length p) s +:+ t.
Proof.
  intros Hp. pose proof (startswith_inv s p Hp) as Hs.
  rewrite Hs at 1 2. rewrite str_app_assoc. split.
  - apply startswith_app.
  - apply str_drop_app.
Qed.

Lemma prefix_head x p c s :
  String.prefix (String x p) (String c s) = true → c = x.
Proof. simpl. by destruct (ascii_dec x c). Qed.

Lemma atom_ext s v r :
  atom s = Some (v, r) → atom (s +:+ newline) = Some (v, r +:+ newline).
Proof.
  destruct s as [|c s1]; [done|]. unfold atom.
  destruct (String.prefix "null" (String c s1)) eqn:Hnull.
  { destruct (literal_ext _ _ newline Hnull) as [-> Hd].
    intros; simplify_eq. do 2 f_equal. exact Hd. }
  destruct (String.prefix "true" (String c s1)) eqn:Htrue.
  { destruct (literal_ext _ _ newline Htrue) as [-> Hd].
    apply prefix_head in Htrue as ->.
    intros; simplify_eq. simpl. do 2 f_equal. exact Hd. }
  destruct (String.prefix "false" (String c s1)) eqn:Hfalse.
  { destruct (literal_ext _ _ newline Hfalse) as [-> Hd].
    apply prefix_head in Hfalse as ->.
    intros; simplify_eq. simpl. do 2 f_equal. exact Hd. }
  destruct (number (String c s1)) as [[z r1]|] eqn:Hn; [|done].
  rewrite (number_ext _ _ _ Hn). intros; simplify_eq.
  destruct (String.prefix "null" (String c s1 +:+ newline)) eqn:H1;
    [by apply (prefix_head _ _ c) in H1 as ->|].
  destruct (String.prefix "true" (String c s1 +:+ newline)) eqn:H2;
    [by apply (prefix_head _ _ c) in H2 as ->|].
  destruct (String.prefix "false" (String c s1 +:+ newline)) eqn:H3;
    [by apply (prefix_head _ _ c) in H3 as ->|].
  done.
Qed.

Section ContainersExt.
Variables pv pv' : string → option (json * string).
Hypothesis pv_ext : ∀ s v r,
  pv s = Some (v, r) → pv' (s +:+ newline) = Some (v, r +:+ newline).
Hypothesis pv_empty : pv EmptyString = None.

Lemma elements_empty n acc : elements_ pv n EmptyString acc = None.
Proof. destruct n; simpl; [done|]. by rewrite pv_empty. Qed.

Lemma members_empty n acc : members pv n EmptyString acc = None.
Proof. by destruct n. Qed.

Lemma elements_ext n s acc items r n' :
  elements_ pv n s acc = Some (items, r) → n ≤ n' →
  elements_ pv' n' (s +:+ newline) acc = Some (items, r +:+ newline).
Proof.
  revert s acc n'. induction n as [|n IH]; intros s acc n'; simpl; [done|].
  destruct n' as [|n']; [lia|]. intros Hrun Hle. simpl.
  destruct (pv s) as [[v r1]|] eqn:Hv; [|done].
  rewrite (pv_ext _ _ _ Hv).
  destruct (skip_ws r1) as [|c r2] eqn:Hr1; [done|].
  rewrite (skip_ws_app _ _ _ newline Hr1).
  destruct (Ascii.eqb c ",").
  - destruct (skip_ws r2) as [|c3 r3] eqn:Hr2.
    { by rewrite elements_empty in Hrun. }
    rewrite (skip_ws_app _ _ _ newline Hr2).
    apply (IH (String c3 r3)); [done|lia].
  - destruct (Ascii.eqb c "]"); [|done]. intros; by simplify_eq.
Qed.

Lemma members_ext n s acc bindings r n' :
  members pv n s acc = Some (bindings, r) → n ≤ n' →
  members pv' n' (s +:+ newline) acc = Some (bindings, r +:+ newline).
Proof.
  revert s acc n'. induction n as [|n IH]; intros s acc n'; simpl; [done|].
  destruct n' as [|n']; [lia|]. intros Hrun Hle.
  destruct s as [|c s1]; [done|]. simpl.
  destruct (Ascii.eqb c quote); [|done].
  destruct (string_body false s1) as [[k r1]|] eqn:Hk; [|done].
  rewrite (string_body_ext _ _ _ _ newline Hk).
  destruct (skip_ws r1) as [|c2 r2] eqn:Hr1; [done|].
  rewrite (skip_ws_app _ _ _ newline Hr1).
  destruct (Ascii.eqb c2 ":"); [|done].
  destruct (skip_ws r2) as [|c3 r3] eqn:Hr2.
  { by rewrite pv_empty in Hrun. }
  rewrite (skip_ws_app _ _ _ newline Hr2).
  destruct (pv (String c3 r3)) as [[v r4]|] eqn:Hv; [|done].
  pose proof (pv_ext _ _ _ Hv) as Hv'. simpl in Hv'. rewrite Hv'.
  destruct (skip_ws r4) as [|c4 r5] eqn:Hr4; [done|].
  rewrite (skip_ws_app _ _ _ newline Hr4).
  destruct (Ascii.eqb c4 ",").
  - destruct (skip_ws r5) as [|c6 r6] eqn:Hr5.
    { by rewrite members_empty in Hrun. }
    rewrite (skip_ws_app _ _ _ newline Hr5).
    apply (IH (String c6 r6)); [done|lia].
  - destruct (Ascii.eqb c4 "}"); [|done]. intros; by simplify_eq.
Qed.
End ContainersExt.

Lemma value_empty fuel : value fuel EmptyString = None.
Proof. by destruct fuel. Qed.

Lemma value_ext fuel s v r fuel' :
  value fuel s = Some (v, r) → fuel ≤ fuel' →
  value fuel' (s +:+ newline) = Some (v, r +:+ newline).
Proof.
  revert s v r fuel'. induction fuel as [|fuel IH]; intros s v r fuel';
    [done|].
  destruct fuel' as [|fuel']; [lia|]. intros Hrun Hle.
  assert (Hpv : ∀ s v r, value fuel s = Some (v, r) →
                value fuel' (s +:+ newline) = Some (v, r +:+ newline))
    by (intros; apply IH; [done|lia]).
  destruct s as [|c s1]; [done|].
  change (String c s1 +:+ newline) with (String c (s1 +:+ newline)).
  cbn [value] in *.
  assert (Hlen : String.length s1 ≤ String.length (s1 +:+ newline))
    by (rewrite str_length_app; lia).
  destruct (Ascii.eqb c "[").
  { destruct (skip_ws s1) as [|c2 s2] eqn:Hs1; [done|].
    rewrite (skip_ws_app _ _ _ newline Hs1).
    destruct (Ascii.eqb c2 "]"); [intros; by simplify_eq|].
    destruct (elements_ _ _ _ _) as [[items r1]|] eqn:He; [|done].
    change (String c2 (s2 +:+ newline)) with (String c2 s2 +:+ newline).
    rewrite (elements_ext _ _ Hpv (value_empty _) _ _ _ _ _ _ He Hlen).
    by simplify_eq. }
  destruct (Ascii.eqb c "{").
  { destruct (skip_ws s1) as [|c2 s2] eqn:Hs1; [done|].
    rewrite (skip_ws_app _ _ _ newline Hs1).
    destruct (Ascii.eqb c2 "}"); [intros; by simplify_eq|].
    destruct (members _ _ _ _) as [[items r1]|] eqn:He; [|done].
    change (String c2 (s2 +:+ newline)) with (String c2 s2 +:+ newline).
    rewrite (members_ext _ _ Hpv (value_empty _) _ _ _ _ _ _ He Hlen).
    by simplify_eq. }
  destruct (Ascii.eqb c quote).
  { destruct (string_body false s1) as [[b r1]|] eqn:Hb; [|done].
    rewrite (string_body_ext _ _ _ _ newline Hb). by simplify_eq. }
  by apply (atom_ext (String c s1)).
Qed.




(** *** The last character of a decoded value *)




Lemma suffix_of_refl s : suffix_of s s.
Proof. by exists EmptyString. Qed.

Lemma suffix_of_cons c r s : suffix_of r s → suffix_of r (String c s).
Proof. intros [p ->]. by exists (String c p). Qed.

Lemma suffix_of_trans a b c : suffix_of a b → suffix_of b c → suffix_of a c.
Proof. intros [p ->] [q ->]. exists (q +:+ p). by rewrite str_app_assoc. Qed.

Lemma suffix_of_skip_ws s : suffix_of (skip_ws s) s.
Proof.
  induction s as [|a s IH]; simpl; [apply suffix_of_refl|].
  destruct (is_ws a); [by apply suffix_of_cons|apply suffix_of_refl].
Qed.

Lemma ends_at_suffix s r : ends_at s r → suffix_of r s.
Proof.
  intros (c & x & -> & _). exists (c +:+ String x EmptyString).
  by rewrite str_app_assoc.
Qed.

Lemma ends_at_within a s r : suffix_of a s → ends_at a r → ends_at s r.
Proof.
  intros [p ->] (c & x & -> & Hx). exists (p +:+ c), x.
  by rewrite str_app_assoc.
Qed.

Lemma ends_at_cons c s r : ends_at s r → ends_at (String c s) r.
Proof. apply ends_at_within, suffix_of_cons, suffix_of_refl. Qed.

Lemma ends_at_head x r : x ≠ backquote → ends_at (String x r) r.
Proof. intros Hx. by exists EmptyString, x. Qed.

Lemma ends_at_skip_ws s c r :
  skip_ws s = String c r → c ≠ backquote → ends_at s r.
Proof.
  intros Hs Hc. apply (ends_at_within (skip_ws s)); [apply suffix_of_skip_ws|].
  rewrite Hs. by apply ends_at_head.
Qed.

Lemma eqb_not_backquote a x :
  Ascii.eqb a x = true → x ≠ backquote → a ≠ backquote.
Proof. by intros ->%Ascii.eqb_eq. Qed.

Lemma digit_not_backquote a d : digit a = Some d → a ≠ backquote.
Proof. by intros Hd ->. Qed.

Lemma string_body_dec escaped s body r :
  string_body escaped s = Some (body, r) → ends_at s r.
Proof.
  revert escaped body r.
  induction s as [|a s IH]; intros escaped body r; simpl; [done|].
  destruct escaped.
  - destruct (unescape a); [|done].
    destruct (string_body false s) as [[b rest]|] eqn:Hb; [|done].
    intros; simplify_eq. by eapply ends_at_cons, IH.
  - destruct (Ascii.eqb a quote) eqn:Hq.
    { intros; simplify_eq. by eapply ends_at_head, eqb_not_backquote. }
    destruct (Ascii.eqb a backslash).
    { intros. by eapply ends_at_cons, IH. }
    destruct (nat_of_ascii a <? 32); [done|].
    destruct (string_body false s) as [[b rest]|] eqn:Hb; [|done].
    intros; simplify_eq. by eapply ends_at_cons, IH.
Qed.

Lemma digits_dec acc s n r : digits acc s = (n, r) → s = r ∨ ends_at s r.
Proof.
  revert acc. induction s as [|a s IH]; intros acc; simpl.
  - intros; simplify_eq. by left.
  - destruct (digit a) as [d|] eqn:Hd; [|intros; simplify_eq; by left].
    intros [->|Hr]%IH; right.
    + by eapply ends_at_head, digit_not_backquote.
    + by apply ends_at_cons.
Qed.

Lemma unsigned_dec s n r : unsigned s = Some (n, r) → ends_at s r.
Proof.
  destruct s as [|a s]; simpl; [done|].
  destruct (digit a) as [d|] eqn:Hd; [|done].
  destruct (d =? 0)%Z.
  - destruct (starts_fraction s); [done|]. intros; simplify_eq.
    by eapply ends_at_head, digit_not_backquote.
  - destruct (digits d s) as [m rest] eqn:Hds.
    destruct (starts_fraction rest); [done|]. intros; simplify_eq.
    destruct (digits_dec _ _ _ _ Hds) as [->|Hr].
    + by eapply ends_at_head, digit_not_backquote.
    + by apply ends_at_cons.
Qed.

Lemma number_dec s n r : number s = Some (n, r) → ends_at s r.
Proof.
  destruct s as [|a s]; [done|]. unfold number.
  destruct (Ascii.eqb a "-").
  - destruct (unsigned s) as [[m rest]|] eqn:Hu; [|done].
    intros; simplify_eq. by eapply ends_at_cons, unsigned_dec.
  - apply unsigned_dec.
Qed.

Lemma literal_dec c x s :
  x ≠ backquote →
  String.prefix (c +:+ String x EmptyString) s = true →
  ends_at s (str_drop (String.length (c +:+ String x EmptyString)) s).
Proof.
  intros Hx Hp. exists c, x. split; [|done].
  rewrite (startswith_inv s _ Hp) at 1. by rewrite str_app_assoc.
Qed.

Lemma atom_dec s v r : atom s = Some (v, r) → ends_at s r.
Proof.
  unfold atom.
  destruct (String.prefix "null" s) eqn:Hnull.
  { intros; simplify_eq. by apply (literal_dec "nul" "l"). }
  destruct (String.prefix "true" s) eqn:Htrue.
  { intros; simplify_eq. by apply (literal_dec "tru" "e"). }
  destruct (String.prefix "false" s) eqn:Hfalse.
  { intros; simplify_eq. by apply (literal_dec "fals" "e"). }
  destruct (number s) as [[z r1]|] eqn:Hn; [|done].
  intros; simplify_eq. by eapply number_dec.
Qed.

Section ContainersDec.
Variable pv : string → option (json * string).
Hypothesis pv_dec : ∀ s v r, pv s = Some (v, r) → suffix_of r s.

Lemma elements_dec n s acc items r :
  elements_ pv n s acc = Some (items, r) → ends_at s r.
Proof.
  revert s acc. induction n as [|n IH]; intros s acc; simpl; [done|].
  destruct (pv s) as [[v r1]|] eqn:Hv; [|done].
  apply pv_dec in Hv.
  destruct (skip_ws r1) as [|c r2] eqn:Hr1; [done|].
  assert (Hr2 : suffix_of r2 s).
  { eapply suffix_of_trans; [|exact Hv].
    eapply suffix_of_trans; [|apply (suffix_of_skip_ws r1)].
    rewrite Hr1. apply suffix_of_cons, suffix_of_refl. }
  destruct (Ascii.eqb c ",").
  - intros Hrec%IH. eapply ends_at_within; [|exact Hrec].
    eapply suffix_of_trans; [apply suffix_of_skip_ws|exact Hr2].
  - destruct (Ascii.eqb c "]") eqn:Hc; [|done]. intros; simplify_eq.
    eapply ends_at_within; [exact Hv|].
    by eapply ends_at_skip_ws, eqb_not_backquote.
Qed.

Lemma members_dec n s acc bindings r :
  members pv n s acc = Some (bindings, r) → ends_at s r.
Proof.
  revert s acc. induction n as [|n IH]; intros s acc; simpl; [done|].
  destruct s as [|c s1]; [done|].
  destruct (Ascii.eqb c quote); [|done].
  destruct (string_body false s1) as [[k r1]|] eqn:Hk; [|done].
  apply string_body_dec, ends_at_suffix in Hk.
  destruct (skip_ws r1) as [|c2 r2] eqn:Hr1; [done|].
  destruct (Ascii.eqb c2 ":"); [|done].
  destruct (pv (skip_ws r2)) as [[v r3]|] eqn:Hv; [|done].
  apply pv_dec in Hv.
  assert (Hr3 : suffix_of r3 (String c s1)).
  { eapply suffix_of_trans; [exact Hv|].
    eapply suffix_of_trans; [apply suffix_of_skip_ws|].
    apply suffix_of_cons.
    eapply suffix_of_trans; [|exact Hk].
    eapply suffix_of_trans; [|apply (suffix_of_skip_ws r1)].
    rewrite Hr1. apply suffix_of_cons, suffix_of_refl. }
  destruct (skip_ws r3) as [|c4 r4] eqn:Hr4; [done|].
  destruct (Ascii.eqb c4 ",").
  - intros Hrec%IH. eapply ends_at_within; [|exact Hrec].
    eapply suffix_of_trans; [apply suffix_of_skip_ws|].
    eapply suffix_of_trans; [|exact Hr3].
    eapply suffix_of_trans; [|apply (suffix_of_skip_ws r3)].
    rewrite Hr4. apply suffix_of_cons, suffix_of_refl.
  - destruct (Ascii.eqb c4 "}") eqn:Hc; [|done]. intros; simplify_eq.
    eapply ends_at_within; [exact Hr3|].
    by eapply ends_at_skip_ws, eqb_not_backquote.
Qed.
End ContainersDec.

Lemma value_dec fuel s v r : value fuel s = Some (v, r) → ends_at s r.
Proof.
  revert s v r. induction fuel as [|fuel IH]; intros s v r; [done|].
  assert (Hpv : ∀ s v r, value fuel s = Some (v, r) → suffix_of r s)
    by (intros ??? Hs; by eapply ends_at_suffix, IH).
  destruct s as [|c s1]; [done|]. cbn [value].
  destruct (Ascii.eqb c "[").
  { destruct (skip_ws s1) as [|c2 s2] eqn:Hs1; [done|].
    destruct (Ascii.eqb c2 "]") eqn:Hc.
    - intros; simplify_eq.
      by eapply ends_at_cons, ends_at_skip_ws, eqb_not_backquote.
    - destruct (elements_ _ _ _ _) as [[items r1]|] eqn:He; [|done].
      intros; simplify_eq. apply ends_at_cons.
      eapply ends_at_within; [apply (suffix_of_skip_ws s1)|].
      rewrite Hs1. by eapply elements_dec. }
  destruct (Ascii.eqb c "{").
  { destruct (skip_ws s1) as [|c2 s2] eqn:Hs1; [done|].
    destruct (Ascii.eqb c2 "}") eqn:Hc.
    - intros; simplify_eq.
      by eapply ends_at_cons, ends_at_skip_ws, eqb_not_backquote.
    - destruct (members _ _ _ _) as [[items r1]|] eqn:He; [|done].
      intros; simplify_eq. apply ends_at_cons.
      eapply ends_at_within; [apply (suffix_of_skip_ws s1)|].
      rewrite Hs1. by eapply members_dec. }
  destruct (Ascii.eqb c quote).
  { destruct (string_body false s1) as [[b r1]|] eqn:Hb; [|done].
    intros; simplify_eq. by eapply ends_at_cons, string_body_dec. }
  apply atom_dec.
Qed.

Lemma last_char_app a b :
  last_char (a +:+ b) =
  match last_char b with Some x => Some x | None => last_char a end.
Proof.
  induction a as [|c a IH]; simpl; [by destruct (last_char b)|].
  rewrite IH. by destruct (last_char b).
Qed.

Lemma endswith_last_char s x :
  endswith s (String x EmptyString) = true → last_char s = Some x.
Proof.
  intros Hs%endswith_inv. rewrite Hs. by rewrite last_char_app.
Qed.

Lemma last_char_ws r x :
  skip_ws r = EmptyString → last_char r = Some x → is_ws x = true.
Proof.
  induction r as [|c r IH]; simpl; [done|].
  destruct (is_ws c) eqn:Hc; [|done]. intros Hr.
  destruct (last_char r); intros; simplify_eq; auto.
Qed.

Lemma ends_at_last_char s r x :
  ends_at s r → skip_ws r = EmptyString → last_char s = Some x → x ≠ backquote.
Proof.
  intros (c & y & -> & Hy) Hr. rewrite last_char_app. simpl.
  destruct (last_char r) as [z|] eqn:Hz.
  - intros; simplify_eq. apply (last_char_ws _ _ Hr) in Hz. by intros ->.
  - by intros; simplify_eq.
Qed.

(** *** The decoder and line breaks, the decoder and backquotes *)

Lemma decoder_padded s v :
  loads s = Some v → loads (newline +:+ s +:+ newline) = Some v.
Proof.
  unfold loads.
  destruct (value _ (skip_ws s)) as [[v' r]|] eqn:Hv; [|done].
  destruct (skip_ws r) eqn:Hr; [|done]. intros; simplify_eq.
  destruct (skip_ws s) as [|c s'] eqn:Hs; [by rewrite value_empty in Hv|].
  change (skip_ws (newline +:+ s +:+ newline)) with (skip_ws (s +:+ newline)).
  rewrite (skip_ws_app _ _ _ newline Hs).
  change (String c (s' +:+ newline)) with (String c s' +:+ newline).
  rewrite (value_ext _ _ _ _ (S (String.length (newline +:+ s +:+ newline)))
             Hv).
  - by rewrite (skip_ws_newline _ Hr).
  - rewrite !str_length_app. lia.
Qed.

Lemma decoder_no_backquote s v :
  loads s = Some v → startswith s "`" = false ∧ endswith s "`" = false.
Proof.
  intros Hs. split.
  - destruct (startswith s "`") eqn:Hp; [|done].
    apply startswith_inv in Hp. rewrite Hp in Hs. done.
  - destruct (endswith s "`") eqn:He; [|done].
    apply endswith_last_char in He.
    unfold loads in Hs.
    destruct (value _ (skip_ws s)) as [[v' r]|] eqn:Hv; [|done].
    destruct (skip_ws r) eqn:Hr; [|done].
    apply value_dec in Hv.
    apply (ends_at_within _ s) in Hv; [|apply suffix_of_skip_ws].
    by destruct (ends_at_last_char _ _ _ Hv Hr He).
Qed.

End DecoderFacts.

(** ** Fenced payloads *)

Section Fences.
Context `{JsonText}.

Lemma payload_has_no_fence t v :
  json_loads t = Some v → strip_markdown t = t.
Proof.
  intros [Hs He]%loads_no_backquote.
  unfold strip_markdown, strip_leading_fence.
  destruct (startswith t fence_open) eqn:Hopen.
  { apply startswith_inv in Hopen. rewrite Hopen in Hs. done. }
  unfold strip_trailing_fence.
  destruct (endswith t fence_close) eqn:Hclose; [|done].
  apply endswith_inv in Hclose. rewrite Hclose in He.
  change fence_close with ("``" +:+ "`") in He.
  by rewrite <-str_app_assoc, endswith_app in He.
Qed.

Lemma parse_payload t v w :
  json_loads t = Some v →
  parse_model_output t w = (Ret (v, None), w) ∧
  parse_model_output (fenced t) w = (Ret (v, None), w).
Proof.
  intros Ht. unfold parse_model_output, py_json_loads.
  rewrite strip_markdown_fenced, (payload_has_no_fence _ _ Ht).
  by rewrite (loads_padded _ _ Ht), Ht.
Qed.

Lemma call_gemini_extracted E p w s :
  extracted_text E p w = Some s →
  call_gemini E p w =
  parse_model_output s {| posts := posts w ++ [p]; screen := screen w |}.
Proof.
  unfold extracted_text, call_gemini, requests_post, py_json_loads.
  unfold mbind at 1, script_bind.
  destruct (oracle E (length (posts w)) p) as [|status text]; [done|].
  destruct (status =? 200)%Z; [|done]. simpl.
  destruct (json_loads text) as [response_json|]; [|done].
  destruct (candidate_text response_json) as [[]|]; try done.
  by intros; simplify_eq.
Qed.

(** C7: for a JSON payload [t] (a text the decoder accepts), a call whose
    candidate text is the fenced block around [t] returns what a call whose
    candidate text is [t] returns: the value of [t] and no error, with
    nothing written on the page. *)
Theorem fence_stripping_lossless (E1 E2 : env) (p : prompt) (w : world)
    (t : string) (v : json) :
  json_loads t = Some v →
  extracted_text E1 p w = Some (fenced t) →
  extracted_text E2 p w = Some t →
  call_gemini E1 p w = call_gemini E2 p w ∧
  call_gemini E2 p w =
    (Ret (v, None), {| posts := posts w ++ [p]; screen := screen w |}).
Proof.
  intros Ht H1 H2.
  rewrite (call_gemini_extracted _ _ _ _ H1), (call_gemini_extracted _ _ _ _ H2).
  destruct (parse_payload t v {| posts := posts w ++ [p]; screen := screen w |}
              Ht) as [-> ->].
  done.
Qed.
End Fences.

#[local] Instance example_json_text : JsonText (H := example_runtime).
Proof.
  split.
  - apply DecoderFacts.decoder_padded.
  - apply DecoderFacts.decoder_no_backquote.
Qed.

(** C7 on a payload with one entity, under the decoder of the examples. *)
Lemma fence_stripping_lossless_witness :
  json_loads (Python := example_runtime) payload = Some payload_value ∧
  call_gemini (H := example_runtime) (scripted [gemini_says (fenced payload)])
    (build_step1_prompt "Alice.") initial_world
  = call_gemini (H := example_runtime) (scripted [gemini_says payload])
    (build_step1_prompt "Alice.") initial_world.
Proof.
  split; [reflexivity|].
  refine (proj1 (fence_stripping_lossless (H := example_runtime)
    (scripted [gemini_says (fenced payload)])
    (scripted [gemini_says payload])
    (build_step1_prompt "Alice.") initial_world payload
    payload_value _ _ _)); vm_compute; reflexivity.
Defined.

(** ** Runs of the examples *)



(** C1 with the service down, and with a service that finds nothing. *)
Lemma stage1_failure_aborts_witness :
  run (H := example_runtime) service_down document =
    (Raise StopException,
     {| posts := [build_step1_prompt document];
        screen := [st_error (ErrorInStep1 NetworkRequestFailed)] |}) ∧
  run (H := example_runtime) service_finds_nothing document =
    (Raise StopException,
     {| posts := [build_step1_prompt document];
        screen := [st_warning NoEntitiesFound] |}).
Proof.
  split.
  - refine (proj1 (proj1 (stage1_failure_aborts (H := example_runtime)
              service_down document) JNull NetworkRequestFailed
              {| posts := [build_step1_prompt document]; screen := [] |} _)).
    vm_compute; reflexivity.
  - refine (proj2 (stage1_failure_aborts (H := example_runtime)
              service_finds_nothing document)
              {| posts := [build_step1_prompt document]; screen := [] |} _).
    vm_compute; reflexivity.
Defined.


(** C3, amended, on a graph with missing names and labels. *)
Lemma projection_total_on_typed_fields_witness :
  Forall (λ n, node_shape n = true) sparse_nodes ∧
  Forall (λ e, edge_shape e = true) sparse_edges ∧
  ∃ g labels,
    format_for_st_link_analysis (H := example_runtime)
      (document_graph sparse_nodes (JArr sparse_edges))
      = Ret (g, node_styles, labels) ∧
    (∀ nd, nd ∈ nodes g →
       ∃ n, n ∈ sparse_nodes ∧
            nd = node_entry (H := example_runtime) (node_id nd) n) ∧
    (∀ ed, ed ∈ edges g →
       ∃ e i, e ∈ sparse_edges ∧
              ed = edge_entry (H := example_runtime) (nodes g) i e).
Proof.
  assert (Hn : Forall (λ n, node_shape n = true) sparse_nodes)
    by (by repeat constructor).
  assert (He : Forall (λ e, edge_shape e = true) sparse_edges)
    by (by repeat constructor).
  split_and!; [exact Hn|exact He|].
  exact (projection_total_on_typed_fields (H := example_runtime) _ _ Hn He).
Defined.

(** C5 on a graph with missing names and labels. *)
Lemma projection_ids_first_occurrences_witness :
  Forall (λ n, node_shape n = true) sparse_nodes ∧
  Forall (λ e, edge_shape e = true) sparse_edges ∧
  ∃ g styles labels,
    format_for_st_link_analysis (H := example_runtime)
      (document_graph sparse_nodes (JArr sparse_edges))
      = Ret (g, styles, labels) ∧
    nodes g = imap (λ j, node_entry (H := example_runtime) (S j))
                   (kept sparse_nodes) ∧
    node_id <$> nodes g = seq 1 (length (nodes g)) ∧
    NoDup ((λ nd, py_hash (node_name nd)) <$> nodes g) ∧
    (∀ nd, nd ∈ nodes g → truthy (node_name nd) = true) ∧
    (∀ n, n ∈ sparse_nodes → truthy (name_of n) = true →
          is_Some (assigned_id (nodes g) (name_of n))).
Proof.
  assert (Hn : Forall (λ n, node_shape n = true) sparse_nodes)
    by (by repeat constructor).
  assert (He : Forall (λ e, edge_shape e = true) sparse_edges)
    by (by repeat constructor).
  split_and!; [exact Hn|exact He|].
  exact (projection_ids_first_occurrences (H := example_runtime) _ _ Hn He).
Defined.

(** C9 under the runtime of the examples. *)
Lemma projection_of_scenario_witness :
  agrees_on_ascii (H := example_runtime) ∧
  format_for_st_link_analysis (H := example_runtime)
    (document_graph (scenario_nodes "curious" "bold") (JArr scenario_edges))
  = Ret (scenario_render "curious" "bold", node_styles,
         {[ "WORKS_AT"; "MET" ]}).
Proof.
  assert (Hup : agrees_on_ascii (H := example_runtime))
    by (intros s _; reflexivity).
  split; [exact Hup|].
  exact (projection_of_scenario (H := example_runtime) "curious" "bold" Hup).
Defined.

(** * Further properties of the code *)

(** ** The client *)

Section Client.
Context `{Python} (E : env).

Lemma py_getitem_raises o k e :
  py_getitem o k = Raise e → e = KeyError ∨ e = TypeError.
Proof.
  destruct o; simpl; try (intros; simplify_eq; by right).
  destruct (assoc k bindings); intros; simplify_eq. by left.
Qed.

Lemma py_getitem0_raises o e :
  py_getitem0 o = Raise e → e = KeyError ∨ e = IndexError ∨ e = TypeError.
Proof.
  destruct o as [| | |[]|[]|]; simpl; intros; simplify_eq; auto.
Qed.

Lemma candidate_text_raises response_json e :
  candidate_text response_json = Raise e →
  e = KeyError ∨ e = IndexError ∨ e = TypeError.
Proof.
  unfold candidate_text.
  repeat match goal with
  | |- context [py_getitem ?o ?k] =>
      let Hx := fresh in
      destruct (py_getitem o k) eqn:Hx; simpl;
      [|apply py_getitem_raises in Hx; intros; simplify_eq; tauto]
  | |- context [py_getitem0 ?o] =>
      let Hx := fresh in
      destruct (py_getitem0 o) eqn:Hx; simpl;
      [|apply py_getitem0_raises in Hx; intros; simplify_eq; tauto]
  end.
  done.
Qed.

Lemma call_gemini_raise_kinds p w e w' :
  call_gemini E p w = (Raise e, w') → escapes_call e.
Proof.
  unfold call_gemini, requests_post, escapes_call, py_json_loads.
  unfold mbind at 1, script_bind.
  destruct (oracle E (length (posts w)) p) as [|status text];
    [script_simpl; intros; simplify_eq|].
  destruct (negb (status =? 200)%Z); [script_simpl; intros; simplify_eq|].
  destruct (json_loads text) as [response_json|];
    [|destruct (json_failure text); script_simpl; intros; simplify_eq; tauto].
  destruct (candidate_text response_json) as [v|x] eqn:Hc.
  - destruct v; try (script_simpl; intros; simplify_eq; tauto).
    unfold parse_model_output, py_json_loads.
    destruct (json_loads (strip_markdown s));
      [|destruct (json_failure (strip_markdown s))];
      script_simpl; intros; simplify_eq; tauto.
  - apply candidate_text_raises in Hc.
    destruct x; script_simpl; intros; simplify_eq; try tauto;
      destruct Hc as [?|[?|?]]; simplify_eq.
Qed.

(** X3: the exceptions that leave [call_gemini] are a [TypeError] or an
    [AttributeError], raised by a response body of an unexpected type, and
    the [ValueError] or [RecursionError] that [json.loads] raises on a text
    it cannot decode for a reason other than its syntax; a
    [RequestException], a [JSONDecodeError], a [KeyError] and an
    [IndexError] never leave it (lines 37-43).  The request has been sent
    and nothing has been written on the page. *)
Theorem call_gemini_raises_only p w e w' :
  call_gemini E p w = (Raise e, w') →
  (e = TypeError ∨ e = AttributeError ∨ e = ValueError ∨ e = RecursionError) ∧
  w' = posted w p.
Proof.
  intros Hcall. split; [by eapply call_gemini_raise_kinds|].
  destruct (call_gemini_world E _ _ _ _ Hcall) as [Hp [Hs|[_ ?]]]; [|done].
  unfold posted. destruct w'. simpl in *. by subst.
Qed.

(** X2: a call sends exactly one request; whenever it returns an error the
    parsed value is [None]; it writes on the page only when the candidate
    text, after the fences are stripped, is not JSON, and then it shows that
    stripped text in one [st.error]. *)
Theorem call_gemini_effects p w r w' :
  call_gemini E p w = (r, w') →
  posts w' = posts w ++ [p] ∧
  match r with
  | Ret (parsed, Some error) =>
      parsed = JNull ∧
      match error with
      | FailedToDecodeJson =>
          ∃ model_output_string,
            extracted_text E p w = Some model_output_string ∧
            json_loads (strip_markdown model_output_string) = None ∧
            screen w' = screen w ++
              [st_error (RawTextNotJson (strip_markdown model_output_string))]
      | _ => screen w' = screen w
      end
  | _ => screen w' = screen w
  end.
Proof.
  unfold call_gemini, extracted_text, requests_post, py_json_loads.
  unfold mbind at 1, script_bind.
  destruct (oracle E (length (posts w)) p) as [|status text];
    [script_simpl; intros; by simplify_eq|].
  destruct (status =? 200)%Z; simpl; [|script_simpl; intros; by simplify_eq].
  destruct (json_loads text) as [response_json|];
    [|destruct (json_failure text); script_simpl; intros; by simplify_eq].
  destruct (candidate_text response_json) as [v|x] eqn:Hc.
  - destruct v; try (script_simpl; intros; by simplify_eq).
    unfold parse_model_output, py_json_loads.
    destruct (json_loads (strip_markdown s)) eqn:Hs;
      [|destruct (json_failure (strip_markdown s))];
      script_simpl; intros; simplify_eq; simpl; try done.
    split; [done|]. split; [done|]. by exists s.
  - destruct x; script_simpl; intros; by simplify_eq.
Qed.

(** X1: a call returns a value without an error exactly when the service
    answers with status 200, the body decodes, the candidate text is a
    string and that text, after the fences are stripped, decodes to the
    value; the only effect is the request. *)
Theorem call_gemini_succeeds_iff p w parsed w' :
  call_gemini E p w = (Ret (parsed, None), w') ↔
  ∃ model_output_string,
    extracted_text E p w = Some model_output_string ∧
    json_loads (strip_markdown model_output_string) = Some parsed ∧
    w' = posted w p.
Proof.
  unfold call_gemini, extracted_text, requests_post, py_json_loads.
  unfold mbind at 1, script_bind. fold (posted w p).
  destruct (oracle E (length (posts w)) p) as [|status text];
    [script_simpl; split; [done|by intros (? & ? & _)]|].
  destruct (status =? 200)%Z; simpl;
    [|script_simpl; split; [done|by intros (? & ? & _)]].
  destruct (json_loads text) as [response_json|];
    [|destruct (json_failure text); script_simpl;
      (split; [done|by intros (? & ? & _)])].
  destruct (candidate_text response_json) as [v|x] eqn:Hc.
  - destruct v;
      try (script_simpl; split; [done|by intros (? & ? & _)]).
    unfold parse_model_output, py_json_loads. split.
    + destruct (json_loads (strip_markdown s)) eqn:Hs;
        [|destruct (json_failure (strip_markdown s))];
        script_simpl; intros; simplify_eq. eauto.
    + intros (s' & ? & Hs & ->). simplify_eq. rewrite Hs. by script_simpl.
  - destruct x; script_simpl; (split; [done|by intros (? & ? & _)]).
Qed.
End Client.

(** X4: stripping removes nothing but fences: the text is the stripped text
    with, in front, nothing or the opening fence and, behind, nothing or the
    closing fence; it never gets longer. *)
Theorem strip_markdown_removes_only_fences (s : string) :
  ∃ a b,
    s = a +:+ strip_markdown s +:+ b ∧
    (a = EmptyString ∨ a = fence_open) ∧
    (b = EmptyString ∨ b = fence_close) ∧
    String.length (strip_markdown s) ≤ String.length s.
Proof.
  unfold strip_markdown.
  assert (Hlead : ∃ a, s = a +:+ strip_leading_fence s ∧
                       (a = EmptyString ∨ a = fence_open)).
  { unfold strip_leading_fence. destruct (startswith s fence_open) eqn:Hs.
    - exists fence_open. split; [|by right].
      exact (startswith_inv s fence_open Hs).
    - exists EmptyString. split; [done|by left]. }
  destruct Hlead as (a & Ha & Hfa).
  set (m := strip_leading_fence s) in *.
  assert (Htrail : ∃ b, m = strip_trailing_fence m +:+ b ∧
                        (b = EmptyString ∨ b = fence_close)).
  { unfold strip_trailing_fence. destruct (endswith m fence_close) eqn:Hm.
    - exists fence_close. split; [|by right]. exact (endswith_inv m fence_close Hm).
    - exists EmptyString. split; [by rewrite str_app_nil_r|by left]. }
  destruct Htrail as (b & Hb & Hfb).
  exists a, b. split_and!; [|done|done|].
  - by rewrite <-Hb.
  - apply (f_equal String.length) in Ha, Hb.
    rewrite str_length_app in Ha, Hb. lia.
Qed.

Lemma endswith_last_char_eq (s p : string) :
  endswith s p = true → p ≠ EmptyString → last_char s = last_char p.
Proof.
  intros Hs%endswith_inv Hp. rewrite Hs, DecoderFacts.last_char_app.
  destruct p as [|c p]; [done|]. simpl. by destruct (last_char p).
Qed.

(** X5: the closing fence is recognised only at the very end of the text:
    a text that ends with a line break keeps its last characters, so a fenced
    block followed by a line break loses the opening fence alone. *)
Theorem trailing_line_break_keeps_closing_fence :
  (∀ s, strip_trailing_fence (s +:+ newline) = s +:+ newline) ∧
  (∀ t, strip_markdown (fenced t +:+ newline) =
        newline +:+ t +:+ newline +:+ fence_close +:+ newline).
Proof.
  assert (Hkeep : ∀ s, strip_trailing_fence (s +:+ newline) = s +:+ newline).
  { intros s. unfold strip_trailing_fence.
    destruct (endswith (s +:+ newline) fence_close) eqn:Hend; [|done].
    apply endswith_last_char_eq in Hend; [|done].
    rewrite DecoderFacts.last_char_app in Hend. done. }
  split; [done|]. intros t.
  unfold strip_markdown, fenced. rewrite !str_app_assoc.
  rewrite strip_leading_fence_open.
  rewrite <-!str_app_assoc. rewrite Hkeep. by rewrite !str_app_assoc.
Qed.

(** X3 on a response whose list of candidates is [null]. *)
Lemma call_gemini_raises_only_witness :
  ∃ e w',
    call_gemini (H := example_runtime) (scripted [gemini_without_candidates])
      (build_step1_prompt document) initial_world = (Raise e, w') ∧
    (e = TypeError ∨ e = AttributeError ∨ e = ValueError ∨
     e = RecursionError) ∧
    w' = posted initial_world (build_step1_prompt document).
Proof.
  eexists _, _. split; [vm_compute; reflexivity|].
  eapply (call_gemini_raises_only (H := example_runtime)
            (scripted [gemini_without_candidates])).
  vm_compute; reflexivity.
Defined.

(** X2 on a candidate text that is not JSON. *)
Lemma call_gemini_effects_witness :
  ∃ w',
    call_gemini (H := example_runtime) (scripted [gemini_says "Alice"])
      (build_step1_prompt document) initial_world
      = (Ret (JNull, Some FailedToDecodeJson), w') ∧
    posts w' = posts initial_world ++ [build_step1_prompt document] ∧
    JNull = JNull ∧
    ∃ model_output_string,
      extracted_text (H := example_runtime) (scripted [gemini_says "Alice"])
        (build_step1_prompt document) initial_world
        = Some model_output_string ∧
      json_loads (Python := example_runtime)
        (strip_markdown model_output_string) = None ∧
      screen w' = screen initial_world ++
        [st_error (RawTextNotJson (strip_markdown model_output_string))].
Proof.
  eexists. split; [vm_compute; reflexivity|].
  eapply (call_gemini_effects (H := example_runtime)
            (scripted [gemini_says "Alice"]) _ _
            (Ret (JNull, Some FailedToDecodeJson))).
  vm_compute; reflexivity.
Defined.

(** ** The list of names in the prompt of Step 3 *)

Lemma quote_split a b r1 r2 :
  has_quote a = false → has_quote b = false →
  a +:+ String Decoder.quote r1 = b +:+ String Decoder.quote r2 →
  a = b ∧ r1 = r2.
Proof.
  revert b. induction a as [|c a IH]; intros [|c' b]; simpl.
  - intros _ _ ?. by simplify_eq.
  - intros _ [Hc _]%orb_false_elim Heq. injection Heq as <- _.
    by rewrite Ascii.eqb_refl in Hc.
  - intros [Hc _]%orb_false_elim _ Heq. injection Heq as -> _.
    by rewrite Ascii.eqb_refl in Hc.
  - intros [_ Ha]%orb_false_elim [_ Hb]%orb_false_elim ?. simplify_eq.
    destruct (IH b Ha Hb) as [-> ->]; done.
Qed.

Lemma join_cons sep x rest :
  Decoder.join sep (x :: rest) =
  x +:+ match rest with
        | [] => EmptyString
        | _ :: _ => sep +:+ Decoder.join sep rest
        end.
Proof. destruct rest; simpl; [by rewrite str_app_nil_r|done]. Qed.

(** X6: the list of names of the prompt of Step 3 does not escape the names:
    a name that contains the separator reads as two names; lists of names
    without a double quote are told apart by the text. *)
Theorem entity_list_str_ambiguity :
  (∀ a b rest,
     entity_list_str ((a +:+ name_separator +:+ b) :: rest) =
     entity_list_str (a :: b :: rest)) ∧
  (∀ l1 l2,
     Forall (λ n, has_quote n = false) l1 →
     Forall (λ n, has_quote n = false) l2 →
     entity_list_str l1 = entity_list_str l2 → l1 = l2).
Proof.
  split.
  - intros a b rest. unfold entity_list_str. rewrite !fmap_cons.
    rewrite !join_cons.
    assert (Hq : quoted (a +:+ name_separator +:+ b) =
                 quoted a +:+ ", " +:+ quoted b).
    { unfold quoted, name_separator. rewrite !str_app_cons.
      f_equal. rewrite !str_app_assoc. f_equal. }
    rewrite Hq. by rewrite !str_app_assoc.
  - intros l1. induction l1 as [|x r1 IH]; intros [|y r2] H1 H2;
      unfold entity_list_str; rewrite ?fmap_cons, ?join_cons; simpl;
      try done.
    apply Forall_cons in H1 as [Hx H1]. apply Forall_cons in H2 as [Hy H2].
    intros Heq. injection Heq as Heq. rewrite !str_app_assoc in Heq.
    simpl in Heq. apply quote_split in Heq as [-> Htail]; [|done|done].
    f_equal. destruct r1 as [|x1 r1], r2 as [|y1 r2]; try done.
    apply IH; [done|done|]. unfold entity_list_str.
    rewrite !fmap_cons in Htail. simpl in Htail. by simplify_eq.
Qed.

(** X6 on two names. *)
Lemma entity_list_str_ambiguity_witness :
  entity_list_str [ "Alice" +:+ name_separator +:+ "Bob" ] =
    entity_list_str ["Alice"; "Bob"] ∧
  ["Alice"; "Bob"] = ["Alice"; "Bob"].
Proof.
  split.
  - exact (proj1 entity_list_str_ambiguity "Alice" "Bob" []).
  - apply (proj2 entity_list_str_ambiguity); [by repeat constructor..|].
    reflexivity.
Defined.

(** ** The domain and the output of the projector *)

Section ProjectorDomain.
Context `{Python}.

Lemma fresh_iff_first_occurrence l st x k :
  node_inv l st → truthy (name_of x) = true → py_hash (name_of x) = Ret k →
  node_name_to_id st !! k = None ↔
  first_occurrence (l ++ [x]) (length l) = true.
Proof.
  intros [Hn Hc Hi Hs] Ht Hk. rewrite first_occurrence_snoc_new, Ht. simpl.
  rewrite forallb_elem_of. split.
  - intros Hlk m Hm. rewrite (same_name_hash _ _ k Hk).
    apply negb_true_iff, bool_decide_eq_false. intros Hmk.
    assert (is_Some (node_name_to_id st !! k)) as [? ?]; [|congruence].
    apply Hs. exists m. split_and!; [done| |done].
    by rewrite (py_hash_truthy _ _ Hmk), <-(py_hash_truthy _ _ Hk).
  - intros Hall. destruct (node_name_to_id st !! k) eqn:Hlk; [|done].
    destruct (proj1 (Hs k)) as (m & Hm & _ & Hmk); [eauto|].
    specialize (Hall m Hm). rewrite (same_name_hash _ _ k Hk) in Hall.
    by rewrite bool_decide_eq_true_2 in Hall.
Qed.

Lemma add_node_unfold st b :
  add_node st (JObj b) =
  if negb (truthy (name_of (JObj b))) then Ret st else
  key ← py_hash (name_of (JObj b));
  match node_name_to_id st !! key with
  | Some _ => Ret st
  | None =>
      label ← py_upper (default (JStr "ENTITY") (assoc "label" b));
      Ret {| elements_nodes :=
               elements_nodes st ++
               [ {| node_id := node_id_counter st; node_label := label;
                    node_name := name_of (JObj b);
                    node_personality :=
                      if String.eqb label "PERSON"
                      then Some (default (JStr EmptyString)
                                         (assoc "personality" b))
                      else None |} ];
             node_name_to_id := <[key := node_id_counter st]> (node_name_to_id st);
             node_id_counter := S (node_id_counter st) |}
  end.
Proof.
  unfold add_node.
  change (py_get (JObj b) "name" JNull) with (Ret (name_of (JObj b))).
  simpl mbind at 1. unfold res_bind at 1.
  destruct (negb (truthy (name_of (JObj b)))); [done|].
  destruct (py_hash (name_of (JObj b))) as [k|]; simpl; [|done].
  destruct (node_name_to_id st !! k); [done|].
  destruct (py_upper _) as [label|]; simpl; [|done].
  by destruct (String.eqb label "PERSON").
Qed.

Lemma add_node_passes l st x :
  node_inv l st →
  if node_passes l x
  then ∃ st', add_node st x = Ret st' ∧ node_inv (l ++ [x]) st'
  else ∃ e, add_node st x = Raise e.
Proof.
  intros Hinv. unfold node_passes.
  destruct x as [| | | | |b]; simpl is_obj; cbn [andb];
    try (eexists; reflexivity).
  rewrite add_node_unfold.
  destruct (truthy (name_of (JObj b))) eqn:Ht; simpl negb; cbv iota.
  2:{ simpl. rewrite first_occurrence_snoc_new, Ht. simpl.
      exists st. split; [done|]. apply node_inv_skip; [done| |congruence].
      by rewrite first_occurrence_snoc_new, Ht. }
  simpl implb at 1.
  destruct (hashable (name_of (JObj b))) eqn:Hh; cbn [andb].
  2:{ destruct (name_of (JObj b)); try done; eexists; reflexivity. }
  destruct (py_hash_hashable _ Hh) as [k Hk]. rewrite Hk.
  simpl mbind at 1. unfold res_bind at 1.
  pose proof (fresh_iff_first_occurrence _ _ _ _ Hinv Ht Hk) as Hfresh.
  destruct (node_name_to_id st !! k) as [i|] eqn:Hlk.
  - assert (Hf : first_occurrence (l ++ [JObj b]) (length l) = false).
    { apply not_true_is_false. intros Hfo. by apply Hfresh in Hfo. }
    rewrite Hf. simpl. exists st. split; [done|].
    apply node_inv_skip; [done|done|]. intros _. exists k. by rewrite Hlk.
  - rewrite (proj1 Hfresh eq_refl). simpl implb.
    pose proof (node_inv_fresh _ _ _ _ Hinv (proj1 Hfresh eq_refl) Hk Hlk)
      as Hnew.
    unfold field_ok, node_entry, label_of in *. simpl in *.
    destruct (assoc "label" b) as [[]|]; simpl;
      rewrite ?Hlk; try (eexists; reflexivity); eauto.
Qed.

Lemma node_loop_passes before st ns :
  for_each add_node node_loop_init before = Ret st → node_inv before st →
  if nodes_pass before ns
  then ∃ st', for_each add_node st ns = Ret st' ∧ node_inv (before ++ ns) st'
  else ∃ e, for_each add_node st ns = Raise e.
Proof.
  revert before st. induction ns as [|x ns IH]; intros before st Hrun Hinv.
  { simpl. exists st. by rewrite app_nil_r. }
  simpl. pose proof (add_node_passes before st x Hinv) as Hx.
  destruct (node_passes before x); simpl.
  - destruct Hx as (st1 & Hstep & Hinv1). rewrite Hstep. simpl.
    assert (Hrun1 : for_each add_node node_loop_init (before ++ [x]) = Ret st1)
      by (rewrite for_each_app, Hrun; simpl; by rewrite Hstep).
    specialize (IH _ _ Hrun1 Hinv1). rewrite <-app_assoc in IH. exact IH.
  - destruct Hx as [e He]. exists e. by rewrite He.
Qed.

Lemma add_edge_unfold ids st b :
  add_edge ids st (JObj b) =
  edge_label ← py_upper (default (JStr "RELATED_TO") (assoc "label" b));
  source_key ← py_hash (source_of (JObj b));
  match ids !! source_key with
  | None => Ret st
  | Some source =>
      target_key ← py_hash (target_of (JObj b));
      match ids !! target_key with
      | None => Ret st
      | Some target =>
          Ret {| elements_edges :=
                   elements_edges st ++
                   [ {| edge_id := "e" +:+ pretty (edge_id_counter st);
                        edge_label := edge_label;
                        edge_source := source;
                        edge_target := target |} ];
                 all_edge_labels := {[ edge_label ]} ∪ all_edge_labels st;
                 edge_id_counter := S (edge_id_counter st) |}
      end
  end.
Proof. reflexivity. Qed.

Lemma not_accepted_source nds e :
  assigned_id nds (source_of e) = None → accepted nds e = false.
Proof.
  intros Hs. unfold accepted. rewrite Hs.
  rewrite bool_decide_eq_false_2; [done|]. by intros [? ?].
Qed.

Lemma not_accepted_target nds e :
  assigned_id nds (target_of e) = None → accepted nds e = false.
Proof.
  intros Ht. unfold accepted. rewrite Ht, andb_comm.
  rewrite bool_decide_eq_false_2; [done|]. by intros [? ?].
Qed.

Lemma add_edge_passes nds ids es st e :
  (∀ name k, py_hash name = Ret k → ids !! k = assigned_id nds name) →
  edge_inv nds es st →
  if edge_passes nds e
  then ∃ st', add_edge ids st e = Ret st' ∧ edge_inv nds (es ++ [e]) st'
  else ∃ x, add_edge ids st e = Raise x.
Proof.
  intros Hids Hinv. unfold edge_passes.
  destruct e as [| | | | |b]; simpl is_obj; cbn [andb];
    try (eexists; reflexivity).
  rewrite add_edge_unfold.
  destruct (field_ok is_str "label" (JObj b)) eqn:Hl; cbn [andb].
  2:{ unfold field_ok in Hl. simpl in Hl.
      destruct (assoc "label" b) as [[]|]; try done; eexists; reflexivity. }
  assert (Hup : py_upper (default (JStr "RELATED_TO") (assoc "label" b)) =
                Ret (str_upper (label_of "RELATED_TO" (JObj b)))).
  { unfold field_ok, label_of in *. simpl in *.
    by destruct (assoc "label" b) as [[]|]. }
  rewrite Hup. simpl mbind at 1. unfold res_bind at 1.
  destruct (hashable (source_of (JObj b))) eqn:Hhs; cbn [andb].
  2:{ destruct (source_of (JObj b)); try done; eexists; reflexivity. }
  destruct (py_hash_hashable _ Hhs) as [ks Hks]. rewrite Hks.
  simpl mbind at 1. unfold res_bind at 1. rewrite (Hids _ _ Hks).
  destruct (assigned_id nds (source_of (JObj b))) as [sid|] eqn:Hsid.
  2:{ rewrite bool_decide_eq_false_2 by (by intros [? ?]). simpl.
      exists st. split; [done|].
      by apply edge_inv_skip, not_accepted_source. }
  rewrite bool_decide_eq_true_2 by eauto. simpl implb.
  destruct (hashable (target_of (JObj b))) eqn:Hht.
  2:{ unfold mbind, res_bind. rewrite (Hids _ _ Hks), Hsid.
      destruct (target_of (JObj b)); try done; eexists; reflexivity. }
  destruct (py_hash_hashable _ Hht) as [kt Hkt]. rewrite Hkt.
  unfold mbind, res_bind. rewrite (Hids _ _ Hkt).
  destruct (assigned_id nds (target_of (JObj b))) as [tid|] eqn:Htid.
  2:{ exists st. split; [done|].
      by apply edge_inv_skip, not_accepted_target. }
  eexists. split; [done|].
  assert (Hacc : accepted nds (JObj b) = true).
  { unfold accepted. rewrite Hsid, Htid.
    by rewrite !bool_decide_eq_true_2 by eauto. }
  pose proof (edge_inv_accept _ _ _ _ Hinv Hacc) as Hnew.
  unfold edge_entry in Hnew. by rewrite Hsid, Htid in Hnew.
Qed.

Lemma edge_loop_passes nds ids before st es :
  (∀ name k, py_hash name = Ret k → ids !! k = assigned_id nds name) →
  edge_inv nds before st →
  if forallb (edge_passes nds) es
  then ∃ st', for_each (add_edge ids) st es = Ret st' ∧
              edge_inv nds (before ++ es) st'
  else ∃ x, for_each (add_edge ids) st es = Raise x.
Proof.
  intros Hids. revert before st.
  induction es as [|e es IH]; intros before st Hinv.
  { simpl. exists st. by rewrite app_nil_r. }
  simpl. pose proof (add_edge_passes nds ids before st e Hids Hinv) as He.
  destruct (edge_passes nds e); simpl.
  - destruct He as (st1 & Hstep & Hinv1). rewrite Hstep. simpl.
    specialize (IH _ _ Hinv1). by rewrite <-app_assoc in IH.
  - destruct He as [x Hx]. exists x. by rewrite Hx.
Qed.

Lemma edge_inv_init nds : edge_inv nds [] edge_loop_init.
Proof. by split. Qed.

(** The projector on any value: it raises outside [projector_accepts], and
    otherwise returns the state of its two loops, which satisfy the loop
    invariants. *)
Lemma format_cases g :
  if projector_accepts g
  then ∃ ns es nl el,
         graph_lists g = Some (ns, es) ∧
         format_for_st_link_analysis g =
           Ret ({| nodes := elements_nodes nl; edges := elements_edges el |},
                node_styles, all_edge_labels el) ∧
         node_inv ns nl ∧ edge_inv (elements_nodes nl) es el
  else ∃ x, format_for_st_link_analysis g = Raise x.
Proof.
  unfold projector_accepts, graph_lists, format_for_st_link_analysis.
  destruct g as [| | | | |b]; try (eexists; reflexivity).
  simpl py_get. unfold mbind, res_bind.
  destruct (py_iter (default (JArr []) (assoc "nodes" b))) as [ns|x];
    [|eexists; reflexivity].
  pose proof (node_loop_passes [] node_loop_init ns eq_refl node_inv_init)
    as Hnodes.
  destruct (py_iter (default (JArr []) (assoc "edges" b))) as [es|x].
  2:{ destruct (for_each add_node node_loop_init ns);
        eexists; reflexivity. }
  destruct (nodes_pass [] ns); cbn [andb].
  2:{ destruct Hnodes as [x ->]. eexists; reflexivity. }
  destruct Hnodes as (nl & -> & Hninv). simpl in Hninv.
  pose proof (edge_loop_passes (elements_nodes nl) (node_name_to_id nl) []
                edge_loop_init es (inv_ids _ _ Hninv) (edge_inv_init _))
    as Hedges.
  unfold projected_nodes. rewrite <-(inv_nodes _ _ Hninv).
  destruct (forallb _ es).
  2:{ destruct Hedges as [x ->]. eexists; reflexivity. }
  destruct Hedges as (el & -> & Heinv). simpl in Heinv.
  by exists ns, es, nl, el.
Qed.

(** X7: the projector returns exactly on the values of [projector_accepts]: an
    object whose nodes and edges can be iterated; every node an object whose
    name, unless empty, can be a dictionary key and whose label, if the node
    is kept, is a string or absent; every edge an object with a string or
    absent label, a source that can be a key and, if the source is a known
    name, a target that can be a key. *)
Theorem projector_returns_iff (llm_json_output : json) :
  (∃ out, format_for_st_link_analysis llm_json_output = Ret out) ↔
  projector_accepts llm_json_output = true.
Proof.
  pose proof (format_cases llm_json_output) as Hc.
  destruct (projector_accepts llm_json_output).
  - destruct Hc as (ns & es & nl & el & _ & Hrun & _). split; eauto.
  - destruct Hc as [x Hx]. rewrite Hx. split; [by intros [? ?]|done].
Qed.

(** X8: whenever the projector returns, whatever the input: the nodes are the
    first occurrences of the non-empty names, numbered from 1; the edges are
    the relationships between two named nodes, numbered from 1; the node
    styles are the five fixed ones; and the labels that get an edge style are
    exactly the labels of the edges of the result. *)
Theorem projector_output (llm_json_output : json) g styles labels :
  format_for_st_link_analysis llm_json_output = Ret (g, styles, labels) →
  ∃ ns es,
    graph_lists llm_json_output = Some (ns, es) ∧
    nodes g = projected_nodes ns ∧
    edges g = projected_edges (nodes g) es ∧
    styles = node_styles ∧
    labels = list_to_set (edge_label <$> edges g).
Proof.
  intros Hrun. pose proof (format_cases llm_json_output) as Hc.
  destruct (projector_accepts llm_json_output).
  2:{ destruct Hc as [x Hx]. congruence. }
  destruct Hc as (ns & es & nl & el & Hlists & Hrun' & Hn & He).
  rewrite Hrun' in Hrun. simplify_eq. exists ns, es. simpl.
  split_and!; [done|apply Hn|apply He|done|apply He].
Qed.

(** X9: a node of the result carries a personality exactly when its label, in
    upper case, is PERSON. *)
Theorem personality_only_on_person_nodes (llm_json_output : json)
    g styles labels :
  format_for_st_link_analysis llm_json_output = Ret (g, styles, labels) →
  ∀ nd, nd ∈ nodes g →
    (is_Some (node_personality nd) ↔ node_label nd = "PERSON").
Proof.
  intros Hrun nd Hnd. pose proof (format_cases llm_json_output) as Hc.
  destruct (projector_accepts llm_json_output).
  2:{ destruct Hc as [x Hx]. congruence. }
  destruct Hc as (ns & es & nl & el & Hlists & Hrun' & Hn & He).
  rewrite Hrun' in Hrun. simplify_eq. simpl in Hnd.
  rewrite (inv_nodes _ _ Hn) in Hnd.
  apply elem_of_lookup_imap in Hnd as (j & n & -> & _).
  unfold node_entry. simpl.
  destruct (String.eqb_spec (str_upper (label_of "ENTITY" n)) "PERSON");
    split; try done; by intros [? ?].
Qed.

(** X10: the graph handed to the widget is closed: whenever the projector
    returns, the node ids are 1 to the number of nodes and the source and
    target of every edge are among them. *)
Theorem rendered_graph_closed (llm_json_output : json) g styles labels :
  format_for_st_link_analysis llm_json_output = Ret (g, styles, labels) →
  node_id <$> nodes g = seq 1 (length (nodes g)) ∧
  ∀ ed, ed ∈ edges g →
    1 ≤ edge_source ed ≤ length (nodes g) ∧
    1 ≤ edge_target ed ≤ length (nodes g).
Proof.
  intros Hrun. pose proof (format_cases llm_json_output) as Hc.
  destruct (projector_accepts llm_json_output).
  2:{ destruct Hc as [x Hx]. congruence. }
  destruct Hc as (ns & es & nl & el & Hlists & Hrun' & Hn & He).
  rewrite Hrun' in Hrun. simplify_eq. simpl.
  assert (Hids : node_id <$> elements_nodes nl
                 = seq 1 (length (elements_nodes nl))).
  { rewrite (inv_nodes _ _ Hn). by rewrite node_entries_ids, length_imap. }
  split; [done|].
  assert (Hrange : ∀ name i, assigned_id (elements_nodes nl) name = Some i →
                             1 ≤ i ≤ length (elements_nodes nl)).
  { intros name i (nd & Hnd & <- & _)%assigned_id_Some.
    assert (Hin : node_id nd ∈ seq 1 (length (elements_nodes nl))).
    { rewrite <-Hids. apply list_elem_of_fmap. eauto. }
    apply elem_of_seq in Hin. lia. }
  intros ed. rewrite (inv_edges _ _ _ He).
  intros (j & e & -> & Hj)%elem_of_lookup_imap.
  apply list_elem_of_lookup_2, list_elem_of_filter in Hj as [Hacc _].
  apply andb_prop in Hacc as
    [[sid Hs]%bool_decide_eq_true [tid Ht]%bool_decide_eq_true].
  unfold edge_entry. simpl. rewrite Hs, Ht. simpl. eauto.
Qed.
End ProjectorDomain.

(** X8 on the ragged graph. *)
Lemma projector_output_witness :
  ∃ g styles labels,
    format_for_st_link_analysis (H := example_runtime) ragged_graph
      = Ret (g, styles, labels) ∧
    ∃ ns es,
      graph_lists ragged_graph = Some (ns, es) ∧
      nodes g = projected_nodes (H := example_runtime) ns ∧
      edges g = projected_edges (H := example_runtime) (nodes g) es ∧
      styles = node_styles ∧
      labels = list_to_set (edge_label <$> edges g).
Proof.
  eexists _, _, _. split; [vm_compute; reflexivity|].
  eapply (projector_output (H := example_runtime) ragged_graph).
  vm_compute; reflexivity.
Defined.

(** X9 on the ragged graph. *)
Lemma personality_only_on_person_nodes_witness :
  ∃ g styles labels,
    format_for_st_link_analysis (H := example_runtime) ragged_graph
      = Ret (g, styles, labels) ∧
    ∀ nd, nd ∈ nodes g →
      (is_Some (node_personality nd) ↔ node_label nd = "PERSON").
Proof.
  eexists _, _, _. split; [vm_compute; reflexivity|].
  eapply (personality_only_on_person_nodes (H := example_runtime) ragged_graph).
  vm_compute; reflexivity.
Defined.

(** X10 on the ragged graph. *)
Lemma rendered_graph_closed_witness :
  ∃ g styles labels,
    format_for_st_link_analysis (H := example_runtime) ragged_graph
      = Ret (g, styles, labels) ∧
    node_id <$> nodes g = seq 1 (length (nodes g)) ∧
    ∀ ed, ed ∈ edges g →
      1 ≤ edge_source ed ≤ length (nodes g) ∧
      1 ≤ edge_target ed ≤ length (nodes g).
Proof.
  eexists _, _, _. split; [vm_compute; reflexivity|].
  eapply (rendered_graph_closed (H := example_runtime) ragged_graph).
  vm_compute; reflexivity.
Defined.

(** ** Runs *)

(** ** The script, inverted *)

Lemma script_bind_inv {A B} (m : script A) (k : A → script B) w r w' :
  (m ≫= k) w = (r, w') →
  (∃ a w1, m w = (Ret a, w1) ∧ k a w1 = (r, w')) ∨
  (∃ e, m w = (Raise e, w') ∧ r = Raise e).
Proof.
  unfold mbind, script_bind. destruct (m w) as [[a|e] w1]; intros Hk.
  - left. eauto.
  - right. exists e. by simplify_eq.
Qed.

Lemma script_bind_ret_inv {A B} (m : script A) (k : A → script B) w b w' :
  (m ≫= k) w = (Ret b, w') →
  ∃ a w1, m w = (Ret a, w1) ∧ k a w1 = (Ret b, w').
Proof. intros [?|(e & _ & ?)]%script_bind_inv; [done|simplify_eq]. Qed.

Lemma assoc_set_same k v b : assoc k (assoc_set k v b) = Some v.
Proof.
  induction b as [|[k' v'] b IH]; simpl.
  - by rewrite String.eqb_refl.
  - destruct (String.eqb k k') eqn:Hk; simpl; by rewrite Hk.
Qed.

Lemma assoc_set_other k k' v b :
  k' ≠ k → assoc k' (assoc_set k v b) = assoc k' b.
Proof.
  intros Hne. induction b as [|[k0 v0] b IH]; simpl.
  - by rewrite (proj2 (String.eqb_neq k' k) Hne).
  - destruct (String.eqb k k0) eqn:Hk; simpl.
    + apply String.eqb_eq in Hk as <-.
      by rewrite (proj2 (String.eqb_neq k' k) Hne).
    + by rewrite IH.
Qed.

Lemma with_personality_field k n p :
  k ≠ "personality" → field k (with_personality n p) = field k n.
Proof. destruct n; try done. simpl. apply assoc_set_other. Qed.

Lemma with_personality_personality n p :
  is_obj n = true → field "personality" (with_personality n p) = Some p.
Proof. destruct n; try done. intros _. simpl. apply assoc_set_same. Qed.

Lemma enriched_field k n n' :
  k ≠ "personality" → enriched n n' → field k n' = field k n.
Proof.
  unfold enriched. intros Hk.
  destruct (is_person n); [|by intros ->].
  intros [p ->]. by apply with_personality_field.
Qed.

Lemma enriched_is_obj n n' : enriched n n' → is_obj n' = is_obj n.
Proof.
  unfold enriched. destruct (is_person n); [|by intros ->].
  intros [p ->]. by destruct n.
Qed.

Lemma enriched_names ns final_nodes :
  Forall2 enriched ns final_nodes → name_of <$> final_nodes = name_of <$> ns.
Proof.
  induction 1 as [|n n' ns fin Hn _ IH]; [done|]. simpl. f_equal; [|done].
  unfold name_of. by rewrite (enriched_field "name" n n').
Qed.

Lemma personality_prompts_cons document_text n ns :
  personality_prompts document_text (n :: ns) =
  personality_prompts document_text [n] ++ personality_prompts document_text ns.
Proof. unfold personality_prompts. simpl. by destruct (is_person n). Qed.

Lemma py_get_raises o k d e : py_get o k d = Raise e → e = AttributeError.
Proof. destruct o; simpl; intros; by simplify_eq. Qed.

Lemma py_iter_raises o e : py_iter o = Raise e → e = TypeError.
Proof. destruct o; simpl; intros; by simplify_eq. Qed.

Lemma py_setitem_raises o k v e : py_setitem o k v = Raise e → e = TypeError.
Proof. destruct o; simpl; intros; by simplify_eq. Qed.

Lemma py_hash_raises v e : py_hash v = Raise e → e = TypeError.
Proof. destruct v; simpl; intros; by simplify_eq. Qed.

Lemma for_each_raises {S A} (P : exn → Prop) (body : S → A → res S) l s e :
  (∀ s x e, body s x = Raise e → P e) →
  for_each body s l = Raise e → P e.
Proof.
  intros Hbody. revert s. induction l as [|x l IH]; intros s; simpl; [done|].
  destruct (body s x) as [s'|e'] eqn:Hx; simpl; [apply IH|].
  intros; simplify_eq. by eapply Hbody.
Qed.

Section Runs.
Context `{Python} (E : env).

Lemma py_upper_raises v e : py_upper v = Raise e → e = AttributeError.
Proof. destruct v; simpl; intros; by simplify_eq. Qed.

(** *** Step 2 *)

Lemma analyze_personality_inv document_text acc node w fin w' :
  analyze_personality E document_text acc node w = (Ret fin, w') →
  entity_shape node = true ∧
  ∃ node', fin = acc ++ [node'] ∧ enriched node node' ∧
           posts w' = posts w ++ personality_prompts document_text [node].
Proof.
  destruct node as [| | | | |b];
    try (unfold analyze_personality; script_simpl; done).
  unfold entity_shape, enriched, personality_prompts. simpl omap.
  destruct (is_person (JObj b)) eqn:Hp.
  2:{ rewrite (analyze_other E document_text acc (JObj b) w eq_refl Hp). intros; simplify_eq.
      split; [done|]. exists (JObj b). by rewrite app_nil_r. }
  destruct (field "name" (JObj b)) as [name|] eqn:Hn.
  2:{ unfold analyze_personality. unfold is_person in Hp. simpl in *.
      script_simpl. by rewrite Hp, Hn. }
  unfold name_of. rewrite Hn. simpl default.
  destruct (call_gemini E (build_step2_prompt name document_text) w)
    as [[[parsed error]|x] w1] eqn:Hcall.
  2:{ unfold analyze_personality. unfold is_person in Hp. simpl in *.
      script_simpl. by rewrite Hp, Hn, Hcall. }
  destruct (call_gemini_world E _ _ _ _ Hcall) as [Hposts _].
  destruct error as [e|].
  - rewrite (analyze_person E _ acc _ _ _ _ _ _ Hp Hn Hcall) by done.
    intros; simplify_eq. split; [by rewrite bool_decide_eq_true_2|]. eauto.
  - destruct (is_obj parsed) eqn:Hobj.
    + rewrite (analyze_person E _ acc _ _ _ _ _ _ Hp Hn Hcall) by done.
      intros; simplify_eq. split; [by rewrite bool_decide_eq_true_2|]. eauto.
    + unfold analyze_personality. unfold is_person in Hp. simpl in *.
      script_simpl. rewrite Hp, Hn, Hcall. by destruct parsed.
Qed.

Lemma script_for_analyze_inv document_text ns acc w fin w' :
  script_for (analyze_personality E document_text) acc ns w = (Ret fin, w') →
  Forall (λ n, entity_shape n = true) ns ∧
  ∃ fin', fin = acc ++ fin' ∧ Forall2 enriched ns fin' ∧
          posts w' = posts w ++ personality_prompts document_text ns.
Proof.
  revert acc w. induction ns as [|n ns IH]; intros acc w; simpl script_for.
  { script_simpl. intros; simplify_eq. split; [done|].
    exists []. by rewrite !app_nil_r. }
  intros (acc1 & w1 & Hn & Hrest)%script_bind_ret_inv.
  apply analyze_personality_inv in Hn as (Hshape & n' & -> & Hen & Hp1).
  apply IH in Hrest as (Hshapes & fin' & -> & Hall & Hp2).
  split; [by constructor|]. exists (n' :: fin').
  split_and!.
  - by rewrite <-app_assoc.
  - by constructor.
  - rewrite Hp2, Hp1, (personality_prompts_cons _ n ns). by rewrite app_assoc.
Qed.

Lemma step2_inv document_text nodes_list w final_nodes w' :
  step2 E document_text nodes_list w = (Ret final_nodes, w') →
  ∃ ns, py_iter nodes_list = Ret ns ∧
        Forall (λ n, entity_shape n = true) ns ∧
        Forall2 enriched ns final_nodes ∧
        posts w' = posts w ++ personality_prompts document_text ns.
Proof.
  unfold step2. intros (ns & w1 & Hiter & Hloop)%script_bind_ret_inv.
  unfold lift in Hiter. simplify_eq.
  apply script_for_analyze_inv in Hloop as (Hshape & fin & -> & Hall & Hp).
  by exists ns.
Qed.


Lemma entity_shape_is_obj ns :
  Forall (λ n, entity_shape n = true) ns → Forall (λ n, is_obj n = true) ns.
Proof.
  intros Hns. eapply Forall_impl; [exact Hns|]. intros n. unfold entity_shape.
  by intros [? _]%andb_prop.
Qed.

(** *** Step 3 *)


Lemma names_of_nodes_missing (final_nodes : list json) acc :
  Forall (λ n, is_obj n = true) final_nodes →
  Exists (λ n, has_name n = false) final_nodes →
  for_each (λ names n, name ← py_getitem n "name"; Ret (names ++ [name]))
           acc final_nodes = Raise KeyError.
Proof.
  intros Hobj Hex. revert acc.
  induction final_nodes as [|n ns IH]; intros acc; [by inversion Hex|].
  apply Forall_cons in Hobj as [Hn Hobj].
  destruct n as [| | | | |b]; try done. simpl.
  destruct (assoc "name" b) as [name|] eqn:Hname; simpl; [|done].
  apply IH; [done|].
  apply Exists_cons in Hex as [Hex|Hex]; [|done].
  unfold has_name in Hex. simpl in Hex. rewrite Hname in Hex.
  by rewrite bool_decide_eq_true_2 in Hex.
Qed.


(** *** Exceptions of the steps *)

Lemma step1_raises document_text w e w' :
  step1 E document_text w = (Raise e, w') →
  e = StopException ∨ escapes_call e.
Proof.
  unfold step1, escapes_call. intros [(a & w1 & Hcall & Hk)|(x & Hcall & ?)]%script_bind_inv;
    simplify_eq.
  - destruct a as [nodes_list [err|]].
    + do 2 script_simpl. simplify_eq. by left.
    + destruct (negb (truthy nodes_list)); do 2 script_simpl; simplify_eq.
      by left.
  - apply call_gemini_raise_kinds in Hcall; unfold escapes_call in Hcall. tauto.
Qed.

Lemma step1_stop document_text e w' :
  step1 E document_text initial_world = (Raise e, w') →
  posts w' = [build_step1_prompt document_text].
Proof.
  unfold step1. intros [(a & w1 & Hcall & Hk)|(x & Hcall & _)]%script_bind_inv.
  - destruct (call_gemini_world E _ _ _ _ Hcall) as [Hp _].
    destruct a as [nodes_list [err|]].
    + do 2 script_simpl. by simplify_eq.
    + destruct (negb (truthy nodes_list)); do 2 script_simpl; by simplify_eq.
  - by destruct (call_gemini_world E _ _ _ _ Hcall) as [Hp _].
Qed.

Lemma analyze_personality_raises document_text acc node w e w' :
  analyze_personality E document_text acc node w = (Raise e, w') → uncaught e.
Proof.
  unfold analyze_personality, uncaught, escapes_call.
  intros [(label & w1 & Hl & Hk)|(x & Hl & ?)]%script_bind_inv.
  2:{ unfold lift in Hl. simplify_eq.
      match goal with Hx : py_get _ _ _ = _ |- _ =>
        apply py_get_raises in Hx end. tauto. }
  apply script_bind_inv in Hk as [(n' & w2 & Hn & Hk)|(x & Hn & ?)].
  { by script_simpl. }
  simplify_eq.
  destruct (py_eq_str label "PERSON"); [|by script_simpl].
  apply script_bind_inv in Hn as [(name & w2 & Hname & Hn)|(y & Hname & ?)].
  2:{ unfold lift in Hname. simplify_eq.
      match goal with Hx : py_getitem _ _ = _ |- _ =>
        apply py_getitem_raises in Hx end. tauto. }
  apply script_bind_inv in Hn as [([pj perr] & w3 & Hcall & Hn)|(y & Hcall & ?)].
  2:{ apply call_gemini_raise_kinds in Hcall; unfold escapes_call in Hcall. simplify_eq. tauto. }
  apply script_bind_inv in Hn as [(p & w4 & Hp & Hn)|(y & Hp & ?)].
  - unfold lift in Hn. simplify_eq.
    match goal with Hx : py_setitem _ _ _ = _ |- _ =>
      apply py_setitem_raises in Hx end. tauto.
  - destruct perr; [by script_simpl|]. unfold lift in Hp. simplify_eq.
    match goal with Hx : py_get _ _ _ = _ |- _ =>
      apply py_get_raises in Hx end. tauto.
Qed.

Lemma script_for_raises document_text ns acc w e w' :
  script_for (analyze_personality E document_text) acc ns w = (Raise e, w') →
  uncaught e.
Proof.
  revert acc w. induction ns as [|n ns IH]; intros acc w; simpl.
  { by script_simpl. }
  intros [(a & w1 & _ & Hk)|(x & Hn & ?)]%script_bind_inv; [by eapply IH|].
  simplify_eq. by eapply analyze_personality_raises.
Qed.

Lemma step2_raises document_text nodes_list w e w' :
  step2 E document_text nodes_list w = (Raise e, w') → uncaught e.
Proof.
  unfold step2.
  intros [(a & w1 & _ & Hk)|(x & Hn & ?)]%script_bind_inv.
  - by eapply script_for_raises.
  - unfold lift in Hn. simplify_eq.
    match goal with Hx : py_iter _ = _ |- _ => apply py_iter_raises in Hx end.
    unfold uncaught, escapes_call. tauto.
Qed.

Lemma step3_raises document_text final_nodes w e w' :
  step3 E document_text final_nodes w = (Raise e, w') → uncaught e.
Proof.
  unfold step3, uncaught, escapes_call.
  intros [(names & w1 & _ & Hk)|(x & Hn & ?)]%script_bind_inv.
  - apply script_bind_inv in Hk as [([v err] & w2 & _ & Hk)|(x & Hcall & ?)].
    + destruct err; by script_simpl.
    + apply call_gemini_raise_kinds in Hcall; unfold escapes_call in Hcall. simplify_eq. tauto.
  - unfold lift in Hn. simplify_eq.
    match goal with Hx : for_each _ _ _ = _ |- _ =>
      apply (for_each_raises (λ e, e = KeyError ∨ e = TypeError)) in Hx end;
      [tauto|].
    intros s n e0. destruct (py_getitem n "name") eqn:Hg; simpl; [done|].
    intros; simplify_eq. by eapply py_getitem_raises.
Qed.

Lemma step4_raises document_text g w e w' :
  step4 E document_text g w = (Raise e, w') → uncaught e.
Proof.
  unfold step4, uncaught, escapes_call.
  intros [([v err] & w1 & _ & Hk)|(x & Hcall & ?)]%script_bind_inv.
  2:{ apply call_gemini_raise_kinds in Hcall; unfold escapes_call in Hcall. simplify_eq. tauto. }
  apply script_bind_inv in Hk as [([] & w2 & _ & Hk)|(x & Hs & ?)];
    [|by script_simpl].
  destruct err; [by script_simpl|].
  apply script_bind_inv in Hk as [(c1 & w3 & _ & Hk)|(x & Hg & ?)].
  - apply script_bind_inv in Hk as [(c2 & w4 & _ & Hk)|(x & Hg & ?)];
      [by script_simpl|].
    unfold lift in Hg. simplify_eq.
    match goal with Hx : py_get _ _ _ = _ |- _ =>
      apply py_get_raises in Hx end. tauto.
  - unfold lift in Hg. simplify_eq.
    match goal with Hx : py_get _ _ _ = _ |- _ =>
      apply py_get_raises in Hx end. tauto.
Qed.

Lemma format_raises g e :
  format_for_st_link_analysis g = Raise e → e = TypeError ∨ e = AttributeError.
Proof.
  assert (Hnode : ∀ st n e, add_node st n = Raise e →
                            e = TypeError ∨ e = AttributeError).
  { intros st n e0. destruct n as [| | | | |b];
      try (unfold add_node; simpl; intros; simplify_eq; tauto).
    rewrite add_node_unfold.
    destruct (negb (truthy (name_of (JObj b)))); [done|].
    destruct (py_hash (name_of (JObj b))) as [k|x] eqn:Hk; simpl.
    2:{ apply py_hash_raises in Hk. intros; simplify_eq. tauto. }
    destruct (node_name_to_id st !! k); [done|].
    destruct (py_upper _) as [l|x] eqn:Hu; simpl; [done|].
    apply py_upper_raises in Hu. intros; simplify_eq. tauto. }
  assert (Hedge : ∀ ids st n e, add_edge ids st n = Raise e →
                                e = TypeError ∨ e = AttributeError).
  { intros ids st n e0. destruct n as [| | | | |b];
      try (unfold add_edge; simpl; intros; simplify_eq; tauto).
    rewrite add_edge_unfold.
    destruct (py_upper _) as [l|x] eqn:Hu; simpl.
    2:{ apply py_upper_raises in Hu. intros; simplify_eq. tauto. }
    destruct (py_hash (source_of (JObj b))) as [k|x] eqn:Hk; simpl.
    2:{ apply py_hash_raises in Hk. intros; simplify_eq. tauto. }
    destruct (ids !! k); [|done].
    destruct (py_hash (target_of (JObj b))) as [k'|x] eqn:Hk'; simpl.
    2:{ apply py_hash_raises in Hk'. intros; simplify_eq. tauto. }
    by destruct (ids !! k'). }
  unfold format_for_st_link_analysis.
  destruct (py_get g "nodes" (JArr [])) as [nv|x] eqn:Hg; simpl.
  2:{ apply py_get_raises in Hg. intros; simplify_eq. tauto. }
  destruct (py_iter nv) as [ns|x] eqn:Hi; simpl.
  2:{ apply py_iter_raises in Hi. intros; simplify_eq. tauto. }
  destruct (for_each add_node node_loop_init ns) as [nl|x] eqn:Hn; simpl.
  2:{ apply (for_each_raises _ _ _ _ _ Hnode) in Hn. intros; by simplify_eq. }
  destruct (py_get g "edges" (JArr [])) as [ev|x] eqn:Hg'; simpl.
  2:{ apply py_get_raises in Hg'. intros; simplify_eq. tauto. }
  destruct (py_iter ev) as [es|x] eqn:Hi'; simpl.
  2:{ apply py_iter_raises in Hi'. intros; simplify_eq. tauto. }
  destruct (for_each _ edge_loop_init es) as [el|x] eqn:He; simpl; [done|].
  apply (for_each_raises _ _ _ _ _ (Hedge _)) in He. intros; by simplify_eq.
Qed.

Lemma render_raises g w e w' : render E g w = (Raise e, w') → uncaught e.
Proof.
  unfold render, uncaught, escapes_call.
  intros [([[gr ns] es] & w1 & _ & Hk)|(x & Hf & ?)]%script_bind_inv.
  - script_simpl. destruct (widget_raises E); by simplify_eq.
  - unfold lift in Hf. simplify_eq.
    match goal with Hx : format_for_st_link_analysis _ = _ |- _ =>
      apply format_raises in Hx end. tauto.
Qed.

(** ** The run *)




(** X11: Step 1 stops the run, with the warning that no entities were found, on
    every answer that Python counts as false: the empty list, but also
    [null], the empty object, the empty string, zero and [false]. *)
Theorem stage1_falsy_answer_stops (document_text : string) nodes_list w1 :
  call_gemini E (build_step1_prompt document_text) initial_world
    = (Ret (nodes_list, None), w1) →
  truthy nodes_list = false →
  run E document_text =
    (Raise StopException,
     {| posts := [build_step1_prompt document_text];
        screen := [st_warning NoEntitiesFound] |}).
Proof.
  intros Hcall Ht.
  destruct (call_gemini_world E _ _ _ _ Hcall) as [Hposts Hscreen].
  assert (Hs : screen w1 = []).
  { destruct Hscreen as [->|[_ ?]]; [done|simplify_eq]. }
  unfold run, pipeline, step1.
  rewrite (script_bind_raise _ _ initial_world StopException
             {| posts := posts w1;
                screen := screen w1 ++ [st_warning NoEntitiesFound] |}).
  - by rewrite Hposts, Hs.
  - rewrite (script_bind_ret _ _ _ _ _ Hcall). by rewrite Ht.
Qed.

(** X12: Step 1 does not check that its answer is a list of objects: on an
    answer that is true for Python, the run ends at the loop of Step 2,
    before any other request, with [TypeError] for a number or [true], and
    with [AttributeError] for a string, an object, or a list whose first
    element is not an object. *)
Theorem stage1_answer_not_entities_crashes (document_text : string)
    nodes_list w1 :
  call_gemini E (build_step1_prompt document_text) initial_world
    = (Ret (nodes_list, None), w1) →
  truthy nodes_list = true →
  match nodes_list with
  | JInt _ | JBool _ => run E document_text = (Raise TypeError, w1)
  | JStr _ | JObj _ => run E document_text = (Raise AttributeError, w1)
  | JArr (x :: _) =>
      is_obj x = false → run E document_text = (Raise AttributeError, w1)
  | _ => True
  end.
Proof.
  intros Hcall Ht.
  assert (H1 : step1 E document_text initial_world = (Ret nodes_list, w1)).
  { unfold step1. rewrite (script_bind_ret _ _ _ _ _ Hcall). by rewrite Ht. }
  assert (Hfirst : ∀ x rest, py_iter nodes_list = Ret (x :: rest) →
            is_obj x = false →
            run E document_text = (Raise AttributeError, w1)).
  { intros x rest Hiter Hx. unfold run, pipeline.
    rewrite (script_bind_ret _ _ _ _ _ H1).
    apply script_bind_raise. unfold step2, lift. rewrite Hiter.
    unfold mbind at 1, script_bind. simpl script_for.
    apply script_bind_raise. unfold analyze_personality.
    apply script_bind_raise. unfold lift. by destruct x. }
  assert (Hiter : py_iter nodes_list = Raise TypeError →
            run E document_text = (Raise TypeError, w1)).
  { intros Hiter. unfold run, pipeline.
    rewrite (script_bind_ret _ _ _ _ _ H1).
    apply script_bind_raise. unfold step2, lift. by rewrite Hiter. }
  destruct nodes_list as [| | |s|items|b]; try done; try (by apply Hiter).
  - destruct s as [|c s]; [done|]. by eapply Hfirst.
  - destruct items as [|x items]; [done|]. intros Hx. by eapply Hfirst.
  - destruct b as [|[k v] b]; [done|]. by eapply Hfirst.
Qed.

(** X15: an entity without a name ends the run: when Step 2 has returned and
    one of its entities has no name, Step 3 raises [KeyError] while it
    collects the names, before it sends its request; the projector, which
    is never reached, would have passed over such an entity. *)
Theorem nameless_entity_crashes (document_text : string)
    nodes_list w1 final_nodes w2 :
  step1 E document_text initial_world = (Ret nodes_list, w1) →
  step2 E document_text nodes_list w1 = (Ret final_nodes, w2) →
  Exists (λ n, has_name n = false) final_nodes →
  run E document_text = (Raise KeyError, w2) ∧
  ∀ st n, n ∈ final_nodes → has_name n = false → add_node st n = Ret st.
Proof.
  intros H1 H2 Hex.
  assert (Hobj : Forall (λ n, is_obj n = true) final_nodes).
  { apply step2_inv in H2 as (ns & _ & Hshape%entity_shape_is_obj & Hen & _).
    clear -Hshape Hen. induction Hen as [|n n' ns fin Hn _ IH]; [done|].
    apply Forall_cons in Hshape as [? ?]. constructor; [|by apply IH].
    by rewrite (enriched_is_obj n n'). }
  split.
  - unfold run, pipeline.
    rewrite (script_bind_ret _ _ _ _ _ H1), (script_bind_ret _ _ _ _ _ H2).
    apply script_bind_raise. unfold step3.
    apply script_bind_raise. unfold lift.
    by rewrite (names_of_nodes_missing _ [] Hobj Hex).
  - intros st n Hn Hname. rewrite Forall_forall in Hobj.
    specialize (Hobj n Hn). destruct n as [| | | | |b]; try done.
    rewrite add_node_unfold. unfold has_name, name_of in *. simpl in *.
    destruct (assoc "name" b); [|done].
    by rewrite bool_decide_eq_true_2 in Hname.
Qed.

End Runs.




(** X11 on the answer [null]. *)
Lemma stage1_falsy_answer_stops_witness :
  run (H := example_runtime) service_answers_null document =
    (Raise StopException,
     {| posts := [build_step1_prompt document];
        screen := [st_warning NoEntitiesFound] |}).
Proof.
  eapply (stage1_falsy_answer_stops (H := example_runtime)
            service_answers_null document JNull).
  - vm_compute; reflexivity.
  - reflexivity.
Defined.

(** X12 on a number and on a list of names. *)
Lemma stage1_answer_not_entities_crashes_witness :
  (∃ w1, run (H := example_runtime) service_answers_number document
         = (Raise TypeError, w1)) ∧
  (∃ w1, run (H := example_runtime) service_answers_names document
         = (Raise AttributeError, w1)).
Proof.
  split.
  - eexists.
    eapply (stage1_answer_not_entities_crashes (H := example_runtime)
              service_answers_number document (JInt 7)).
    + vm_compute; reflexivity.
    + reflexivity.
  - eexists.
    eapply (stage1_answer_not_entities_crashes (H := example_runtime)
              service_answers_names document (JArr [JStr "Alice"])).
    + vm_compute; reflexivity.
    + reflexivity.
    + reflexivity.
Defined.

(** X15 on a location without a name. *)
Lemma nameless_entity_crashes_witness :
  ∃ final_nodes w2,
    Exists (λ n, has_name n = false) final_nodes ∧
    run (H := example_runtime) nameless_service document
      = (Raise KeyError, w2) ∧
    ∀ st n, n ∈ final_nodes → has_name n = false →
            add_node (H := example_runtime) st n = Ret st.
Proof.
  eexists [JObj [("label", JStr "LOCATION")]], _.
  split; [by left|].
  eapply (nameless_entity_crashes (H := example_runtime) nameless_service
            document).
  - vm_compute; reflexivity.
  - vm_compute; reflexivity.
  - by left.
Defined.

(** ** What the page shows *)

Lemma graphless_nil : graphless [].
Proof. constructor. Qed.


Section Pages.
Context `{Python} (E : env).


Lemma lift_same {A} (m : res A) r w w' :
  lift m w = (r, w') → w' = w.
Proof. unfold lift. intros; by simplify_eq. Qed.







(** X20: whenever Step 2 returns, it has kept every entity, in the order
    of Step 1, with its name and its label untouched; every entity labelled
    PERSON has a personality and every other entity is unchanged; and it has
    sent one request for each entity labelled PERSON, in order. *)
Theorem step2_keeps_entities (document_text : string)
    nodes_list w final_nodes w' :
  step2 E document_text nodes_list w = (Ret final_nodes, w') →
  ∃ ns,
    py_iter nodes_list = Ret ns ∧
    name_of <$> final_nodes = name_of <$> ns ∧
    field "label" <$> final_nodes = field "label" <$> ns ∧
    Forall2 (λ n n', if is_person n
                     then is_Some (field "personality" n')
                     else n' = n) ns final_nodes ∧
    posts w' = posts w ++ personality_prompts document_text ns.
Proof.
  intros (ns & Hiter & Hshape & Hen & Hposts)%step2_inv.
  exists ns. split_and!; [done|by apply enriched_names| | |done].
  - clear -Hen. induction Hen as [|n n' ns fin Hn _ IH]; [done|].
    simpl. f_equal; [|done]. by apply enriched_field.
  - apply entity_shape_is_obj in Hshape. clear -Hen Hshape.
    induction Hen as [|n n' ns fin Hn _ IH]; [constructor|].
    apply Forall_cons in Hshape as [Hobj Hshape].
    constructor; [|by apply IH].
    unfold enriched in Hn. destruct (is_person n); [|done].
    destruct Hn as [p ->]. by rewrite with_personality_personality.
Qed.

End Pages.

(** X20 on the entities of the scenario. *)
Lemma step2_keeps_entities_witness :
  ∃ final_nodes w',
    step2 (H := example_runtime) stage4_down document stage1_entities
      (posted initial_world (build_step1_prompt document))
      = (Ret final_nodes, w') ∧
    ∃ ns,
      py_iter stage1_entities = Ret ns ∧
      name_of <$> final_nodes = name_of <$> ns ∧
      field "label" <$> final_nodes = field "label" <$> ns ∧
      Forall2 (λ n n', if is_person n
                       then is_Some (field "personality" n')
                       else n' = n) ns final_nodes ∧
      posts w' = posts (posted initial_world (build_step1_prompt document)) ++
                 personality_prompts document ns.
Proof.
  eexists _, _. split; [vm_compute; reflexivity|].
  eapply (step2_keeps_entities (H := example_runtime) stage4_down document).
  vm_compute; reflexivity.
Defined.


(** ** First occurrences in the result of the projector *)

Lemma kept_lookup ns j n :
  ns !! j = Some n → first_occurrence ns j = true → ∃ i, kept ns !! i = Some n.
Proof.
  intros Hj Hfo. apply list_elem_of_lookup_1. unfold kept.
  apply list_elem_of_omap. exists j. split.
  - apply elem_of_seq. apply lookup_lt_Some in Hj. lia.
  - by rewrite Hfo.
Qed.

Section FirstOccurrences.
Context `{Python}.

Lemma projected_first_occurrence ns es g styles labels j n :
  format_for_st_link_analysis (document_graph ns es) = Ret (g, styles, labels) →
  ns !! j = Some n → first_occurrence ns j = true →
  ∃ i, nodes g !! i = Some (node_entry (S i) n).
Proof.
  intros Hrun Hj Hfo. pose proof (format_cases (document_graph ns es)) as Hc.
  destruct (projector_accepts (document_graph ns es)).
  2:{ destruct Hc as [x Hx]. congruence. }
  destruct Hc as (ns' & es' & nl & el & Hlists & Hrun' & Hn & He).
  rewrite Hrun' in Hrun. simplify_eq.
  assert (ns' = ns) as ->.
  { unfold graph_lists, document_graph in Hlists. simpl in Hlists.
    destruct (py_iter es); by simplify_eq. }
  destruct (kept_lookup _ _ _ Hj Hfo) as [i Hi]. exists i. simpl.
  rewrite (inv_nodes _ _ Hn), list_lookup_imap, Hi. done.
Qed.
End FirstOccurrences.

Section Amended.
Context `{Python} (E : env).


Lemma uncaught_not_stop e : uncaught e → e ≠ StopException.
Proof. unfold uncaught, escapes_call. intros Hu ->. intuition discriminate. Qed.

(** X19: [st.stop()] is reached in Step 1 only.  A run that ends with it
    has sent the single request of Step 1, and the call has returned an
    error, which [st.error] shows, or a value that Python counts as false,
    for which the page holds the warning that no entities were found and
    nothing else.  No failure of a later step ends a run in this way. *)
Theorem run_stops_only_at_step1 (document_text : string) wf :
  run E document_text = (Raise StopException, wf) →
  ∃ nodes_list error w1,
    call_gemini E (build_step1_prompt document_text) initial_world
      = (Ret (nodes_list, error), w1) ∧
    posts wf = [build_step1_prompt document_text] ∧
    match error with
    | Some e => screen wf = screen w1 ++ [st_error (ErrorInStep1 e)]
    | None => truthy nodes_list = false ∧
              screen wf = [st_warning NoEntitiesFound]
    end.
Proof.
  unfold run, pipeline.
  intros [(nodes_list & w1 & _ & Hk)|(x & H1 & Hx)]%script_bind_inv.
  { exfalso.
    assert (Hu : uncaught StopException); [|by apply uncaught_not_stop in Hu].
    apply script_bind_inv in Hk as [(final_nodes & w2 & _ & Hk)|(x & H2 & ?)];
      [|simplify_eq; by eapply step2_raises].
    apply script_bind_inv in Hk as [(final_edges & w3 & _ & Hk)|(x & H3 & ?)];
      [|simplify_eq; by eapply step3_raises].
    apply script_bind_inv in Hk as [([] & w4 & _ & Hk)|(x & Hm & ?)];
      [|by script_simpl].
    apply script_bind_inv in Hk as [([] & w5 & _ & Hk)|(x & H4 & ?)];
      [|simplify_eq; by eapply step4_raises].
    apply script_bind_inv in Hk as [([] & w6 & _ & Hk)|(x & Hm & ?)];
      [|by script_simpl].
    by eapply render_raises. }
  simplify_eq. unfold step1 in H1.
  apply script_bind_inv in H1 as [([v err] & w1 & Hcall & Hk)|(x & Hcall & ?)].
  2:{ simplify_eq. apply call_gemini_raise_kinds in Hcall.
      unfold escapes_call in Hcall. intuition discriminate. }
  destruct (call_gemini_world E _ _ _ _ Hcall) as [Hposts Hscreen].
  exists v, err, w1. split; [done|].
  destruct err as [e|].
  - do 2 script_simpl. simplify_eq. simpl. by rewrite Hposts.
  - destruct (truthy v) eqn:Ht; do 2 script_simpl; simplify_eq. simpl.
    rewrite Hposts. split_and!; [done|done|].
    destruct Hscreen as [->|[_ ?]]; [done|simplify_eq].
Qed.

(** X13: Step 2 compares the label with PERSON as it is, the projector after
    upper-casing it.  An entity whose label is not PERSON but becomes PERSON
    in upper case gets no personality call and is left as it is by Step 2;
    and whenever the projector returns on a graph in which the entity is the
    first occurrence of its name, its result holds a node labelled PERSON
    with the entity's name and the personality the entity came with, or the
    empty string. *)
Theorem person_label_case_mismatch (document_text : string)
    acc node s w ns es g styles labels j :
  field "label" node = Some (JStr s) → s ≠ "PERSON" →
  str_upper s = "PERSON" →
  format_for_st_link_analysis (document_graph ns es) = Ret (g, styles, labels) →
  ns !! j = Some node → first_occurrence ns j = true →
  analyze_personality E document_text acc node w = (Ret (acc ++ [node]), w) ∧
  ∃ i, nodes g !! i =
         Some {| node_id := S i; node_label := "PERSON";
                 node_name := name_of node;
                 node_personality :=
                   Some (default (JStr EmptyString)
                                 (field "personality" node)) |}.
Proof.
  intros Hl Hs Hup Hrun Hj Hfo. split.
  - apply analyze_other; [by destruct node|].
    unfold is_person. rewrite Hl. simpl.
    by apply String.eqb_neq.
  - destruct (projected_first_occurrence _ _ _ _ _ _ _ Hrun Hj Hfo) as [i Hi].
    exists i. rewrite Hi. unfold node_entry, label_of.
    by rewrite Hl, Hup, String.eqb_refl.
Qed.

(** X14: the personality that Step 2 stores on an entity labelled PERSON is
    the one the projector shows.  When the personality call returns an
    object, Step 2 appends an entity such that, whenever the projector
    returns on a graph in which that entity is the first occurrence of its
    name, its result holds a node labelled PERSON with the entity's name and
    the personality of the object, or the empty string if the object has
    none. *)
Theorem personality_round_trip (document_text : string)
    acc node name w parsed w' :
  agrees_on_ascii →
  is_person node = true → field "name" node = Some name →
  call_gemini E (build_step2_prompt name document_text) w
    = (Ret (parsed, None), w') →
  is_obj parsed = true →
  ∃ node',
    analyze_personality E document_text acc node w
      = (Ret (acc ++ [node']), w') ∧
    ∀ ns es g styles labels j,
      format_for_st_link_analysis (document_graph ns es)
        = Ret (g, styles, labels) →
      ns !! j = Some node' → first_occurrence ns j = true →
      ∃ i, nodes g !! i =
             Some {| node_id := S i; node_label := "PERSON";
                     node_name := name;
                     node_personality :=
                       Some (default (JStr EmptyString)
                                     (field "personality" parsed)) |}.
Proof.
  intros Hup Hp Hn Hcall Hobj. eexists. split.
  { by apply (analyze_person E _ acc _ _ _ _ _ _ Hp Hn Hcall). }
  intros ns es g styles labels j Hrun Hj Hfo.
  destruct (projected_first_occurrence _ _ _ _ _ _ _ Hrun Hj Hfo) as [i Hi].
  exists i. rewrite Hi. simpl. unfold node_entry, label_of, name_of.
  assert (Ho : is_obj node = true) by (by destruct node).
  rewrite !with_personality_field by done.
  rewrite with_personality_personality by done. rewrite Hn. simpl.
  unfold is_person in Hp.
  destruct (field "label" node) as [[| | |s| |]|]; try done. simpl in Hp.
  apply String.eqb_eq in Hp as ->.
  rewrite (Hup "PERSON") by reflexivity.
  change (ascii_upper "PERSON") with "PERSON". by rewrite String.eqb_refl.
Qed.

(** ** Steps 2 and 3: what a failed call does to the run *)

Lemma enriched_carried_over n n' :
  is_obj n = true → enriched n n' → carried_over n n'.
Proof.
  intros Hobj Hen. split_and!.
  - by rewrite (enriched_is_obj n n').
  - intros k Hk. by apply enriched_field.
  - unfold enriched in Hen. destruct (is_person n); [|done].
    destruct Hen as [p ->]. by rewrite with_personality_personality.
Qed.

(** C8, amended: a personality call that returns an error does not stop the
    loop of Step 2: the entity gets the empty string as its personality,
    keeps its other fields, and is appended.  For entities that are objects
    (persons with a name) and personality calls that each return an error or
    a decoded object, Step 2 returns all the entities, of every category, in
    the order of Step 1, each with its other fields as they were, each
    person with a personality and every other entity unchanged.  A
    personality call that raises, or that returns a value that is not an
    object, is not absorbed: the loop ends with the exception of the call,
    or with [AttributeError]. *)
Theorem stage2_failures_absorbed (document_text : string) :
  (∀ acc node name w parsed e w',
     is_person node = true → field "name" node = Some name →
     call_gemini E (build_step2_prompt name document_text) w
       = (Ret (parsed, Some e), w') →
     ∃ node',
       analyze_personality E document_text acc node w
         = (Ret (acc ++ [node']), w') ∧
       is_obj node' = true ∧
       field "personality" node' = Some (JStr EmptyString) ∧
       ∀ k, k ≠ "personality" → field k node' = field k node) ∧
  (∀ ns w,
     Forall (λ n, entity_shape n = true) ns →
     personality_calls_return E document_text →
     ∃ final_nodes w',
       step2 E document_text (JArr ns) w = (Ret final_nodes, w') ∧
       Forall2 carried_over ns final_nodes) ∧
  (∀ acc node name w,
     is_person node = true → field "name" node = Some name →
     (∀ x w',
        call_gemini E (build_step2_prompt name document_text) w
          = (Raise x, w') →
        analyze_personality E document_text acc node w = (Raise x, w')) ∧
     (∀ parsed w',
        call_gemini E (build_step2_prompt name document_text) w
          = (Ret (parsed, None), w') →
        is_obj parsed = false →
        analyze_personality E document_text acc node w
          = (Raise AttributeError, w'))).
Proof.
  split_and!.
  - intros acc node name w parsed e w' Hp Hn Hcall.
    assert (Ho : is_obj node = true) by (by destruct node).
    eexists. split.
    { by apply (analyze_person E _ acc _ _ _ _ _ _ Hp Hn Hcall). }
    simpl. split_and!.
    + by destruct node.
    + by apply with_personality_personality.
    + intros k Hk. by apply with_personality_field.
  - intros ns w Hns Hcalls. unfold step2. script_simpl.
    enough (Hloop : ∀ acc w, ∃ fin w',
      script_for (analyze_personality E document_text) acc ns w
        = (Ret (acc ++ fin), w') ∧ Forall2 carried_over ns fin).
    { destruct (Hloop [] w) as (fin & w' & Hrun & Hfin). eauto. }
    induction ns as [|n ns IH]; intros acc w0.
    { exists [], w0. rewrite app_nil_r. by split. }
    apply Forall_cons in Hns as [Hn Hns].
    apply andb_prop in Hn as [Hobj Hname].
    assert (∃ n' w1,
      analyze_personality E document_text acc n w0 = (Ret (acc ++ [n']), w1) ∧
      enriched n n') as (n' & w1 & Hstep & Hen).
    { unfold enriched. destruct (is_person n) eqn:Hp.
      - apply bool_decide_eq_true in Hname as [name Hname].
        destruct (Hcalls name w0) as (parsed & error & w1 & Hcall & Hok).
        eexists _, w1. split; [by eapply analyze_person|eauto].
      - exists n, w0. split; [by apply analyze_other|done]. }
    destruct (IH Hns (acc ++ [n']) w1) as (fin & w' & Hrun & Hfin).
    exists (n' :: fin), w'. split.
    + simpl. script_simpl. rewrite Hstep, Hrun. by rewrite <-app_assoc.
    + constructor; [by apply enriched_carried_over|done].
  - intros acc node name w Hp Hn.
    destruct node as [| | | | |b]; try done.
    unfold is_person in Hp. simpl in Hp, Hn. split.
    + intros x w' Hcall. unfold analyze_personality. script_simpl.
      by rewrite Hp, Hn, Hcall.
    + intros parsed w' Hcall Hobj. unfold analyze_personality. script_simpl.
      rewrite Hp, Hn, Hcall. by destruct parsed.
Qed.

End Amended.

(** ** Examples of the amended claims and of the further properties *)

(** Counterexample to C8: in the scenario, Alice's personality call gets a
    response whose list of candidates is [null], and the run ends in Step 2
    with [TypeError]; it gets the answer [null], and the run ends in Step 2
    with [AttributeError].  Nothing of the graph is shown. *)
Lemma stage2_call_failure_aborts_run :
  run (H := example_runtime) personality_call_raises document =
    (Raise TypeError,
     {| posts := [build_step1_prompt document;
                  build_step2_prompt (JStr "Alice") document];
        screen := [] |}) ∧
  run (H := example_runtime) personality_is_null document =
    (Raise AttributeError,
     {| posts := [build_step1_prompt document;
                  build_step2_prompt (JStr "Alice") document];
        screen := [] |}).
Proof. split; vm_compute; reflexivity. Qed.

(** C8, amended, with a service whose personality call fails for Alice, and
    with the two services of the counterexample. *)
Lemma stage2_failures_absorbed_witness :
  (∃ node',
     analyze_personality (H := example_runtime) moody_service document []
       (entity "Alice" "PERSON") initial_world =
       (Ret ([] ++ [node']),
        {| posts := [build_step2_prompt (JStr "Alice") document];
           screen := [] |}) ∧
     is_obj node' = true ∧
     field "personality" node' = Some (JStr EmptyString) ∧
     ∀ k, k ≠ "personality" →
          field k node' = field k (entity "Alice" "PERSON")) ∧
  (∃ final_nodes w',
     step2 (H := example_runtime) moody_service document stage1_entities
       initial_world = (Ret final_nodes, w') ∧
     Forall2 carried_over
       [ entity "Alice" "PERSON"; entity "Bob" "PERSON";
         entity "Acme Corp" "ORGANIZATION"; entity "Paris" "LOCATION" ]
       final_nodes ∧
     final_nodes =
       [ with_traits "Alice" "PERSON" EmptyString;
         with_traits "Bob" "PERSON" "bold";
         entity "Acme Corp" "ORGANIZATION"; entity "Paris" "LOCATION" ]) ∧
  analyze_personality (H := example_runtime) personality_call_raises document
    [] (entity "Alice" "PERSON")
    (posted initial_world (build_step1_prompt document))
    = (Raise TypeError,
       posted (posted initial_world (build_step1_prompt document))
              (build_step2_prompt (JStr "Alice") document)) ∧
  analyze_personality (H := example_runtime) personality_is_null document
    [] (entity "Alice" "PERSON")
    (posted initial_world (build_step1_prompt document))
    = (Raise AttributeError,
       posted (posted initial_world (build_step1_prompt document))
              (build_step2_prompt (JStr "Alice") document)).
Proof.
  split_and!.
  - destruct (stage2_failures_absorbed (H := example_runtime) moody_service
                document) as (Hone & _ & _).
    apply (Hone [] _ (JStr "Alice") initial_world JNull NetworkRequestFailed);
      vm_compute; reflexivity.
  - destruct (stage2_failures_absorbed (H := example_runtime) moody_service
                document) as (_ & Hall & _).
    destruct (Hall [ entity "Alice" "PERSON"; entity "Bob" "PERSON";
                     entity "Acme Corp" "ORGANIZATION";
                     entity "Paris" "LOCATION" ] initial_world)
      as (final_nodes & w' & Hrun & Hfin).
    + by repeat constructor.
    + intros name w. unfold call_gemini, requests_post.
      unfold mbind at 1, script_bind. unfold moody_service. cbn [oracle].
      destruct (py_eq_str name "Alice").
      * eexists _, _, _. split; [reflexivity|done].
      * eexists _, _, _. split; [vm_compute; reflexivity|done].
    + exists final_nodes, w'. split_and!; [exact Hrun|exact Hfin|].
      vm_compute in Hrun. by simplify_eq.
  - destruct (stage2_failures_absorbed (H := example_runtime)
                personality_call_raises document) as (_ & _ & Hbad).
    apply (proj1 (Hbad [] (entity "Alice" "PERSON") (JStr "Alice")
                    (posted initial_world (build_step1_prompt document))
                    eq_refl eq_refl)).
    vm_compute; reflexivity.
  - destruct (stage2_failures_absorbed (H := example_runtime)
                personality_is_null document) as (_ & _ & Hbad).
    apply (proj2 (Hbad [] (entity "Alice" "PERSON") (JStr "Alice")
                    (posted initial_world (build_step1_prompt document))
                    eq_refl eq_refl) JNull).
    + vm_compute; reflexivity.
    + reflexivity.
Defined.


(** C6 on two entities and four relationships, the first and the third of
    which have an endpoint that is no entity: the second and the fourth are
    the edges [e1] and [e2]. *)
Lemma projection_edge_ids_gap_free_witness :
  Forall (λ n, node_shape n = true) pair_nodes ∧
  Forall (λ e, edge_shape e = true) mixed_edges ∧
  ∃ g styles labels,
    format_for_st_link_analysis (H := example_runtime)
      (document_graph pair_nodes (JArr mixed_edges))
      = Ret (g, styles, labels) ∧
    edges g = imap (λ j, edge_entry (H := example_runtime) (nodes g) (S j))
                   (filter (λ e, accepted (nodes g) e = true) mixed_edges) ∧
    edge_id <$> edges g
      = (λ i, "e" +:+ pretty i) <$> seq 1 (length (edges g)) ∧
    length (edges g) ≤ length mixed_edges ∧
    edges g = [ Build_edge_data "e1" "MET" 1 2;
                Build_edge_data "e2" "KNOWS" 2 1 ] ∧
    filter (λ e, accepted (nodes g) e = true) mixed_edges =
      [ JObj [("source", JStr "Alice"); ("label", JStr "met");
              ("target", JStr "Bob")];
        JObj [("source", JStr "Bob"); ("label", JStr "knows");
              ("target", JStr "Alice")] ].
Proof.
  assert (Hn : Forall (λ n, node_shape n = true) pair_nodes)
    by (by repeat constructor).
  assert (He : Forall (λ e, edge_shape e = true) mixed_edges)
    by (by repeat constructor).
  split_and!; [exact Hn|exact He|].
  destruct (projection_edge_ids_gap_free (H := example_runtime) _ _ Hn He)
    as (g & styles & labels & Hrun & Hedges & Hids & Hlen).
  exists g, styles, labels. split_and!; [done|done|done|done| |].
  - vm_compute in Hrun. by simplify_eq.
  - vm_compute in Hrun. by simplify_eq.
Defined.

(** X19 with the service down. *)
Lemma run_stops_only_at_step1_witness :
  ∃ wf nodes_list error w1,
    run (H := example_runtime) service_down document
      = (Raise StopException, wf) ∧
    call_gemini (H := example_runtime) service_down
      (build_step1_prompt document) initial_world
      = (Ret (nodes_list, error), w1) ∧
    posts wf = [build_step1_prompt document] ∧
    match error with
    | Some e => screen wf = screen w1 ++ [st_error (ErrorInStep1 e)]
    | None => truthy nodes_list = false ∧
              screen wf = [st_warning NoEntitiesFound]
    end.
Proof.
  eexists.
  assert (Hrun : run (H := example_runtime) service_down document =
            (Raise StopException,
             {| posts := [build_step1_prompt document];
                screen := [st_error (ErrorInStep1 NetworkRequestFailed)] |}))
    by (vm_compute; reflexivity).
  destruct (run_stops_only_at_step1 (H := example_runtime) service_down
              document _ Hrun) as (nodes_list & error & w1 & Hres).
  exists nodes_list, error, w1. split; [exact Hrun|exact Hres].
Defined.

(** X13 on an entity labelled [person] in lower case. *)
Lemma person_label_case_mismatch_witness :
  ∃ g styles labels,
    format_for_st_link_analysis (H := example_runtime)
      (document_graph [entity "Alice" "person"] (JArr []))
      = Ret (g, styles, labels) ∧
    analyze_personality (H := example_runtime) service_down document []
      (entity "Alice" "person") initial_world
      = (Ret ([] ++ [entity "Alice" "person"]), initial_world) ∧
    ∃ i, nodes g !! i =
           Some {| node_id := S i; node_label := "PERSON";
                   node_name := name_of (entity "Alice" "person");
                   node_personality :=
                     Some (default (JStr EmptyString)
                             (field "personality"
                                (entity "Alice" "person"))) |}.
Proof.
  eexists _, _, _. split; [vm_compute; reflexivity|].
  eapply (person_label_case_mismatch (H := example_runtime) service_down
            document [] (entity "Alice" "person") "person" initial_world
            [entity "Alice" "person"] (JArr []) _ _ _ 0).
  - reflexivity.
  - done.
  - reflexivity.
  - vm_compute; reflexivity.
  - reflexivity.
  - reflexivity.
Defined.

(** X14 on Alice's personality call in the scenario. *)
Lemma personality_round_trip_witness :
  agrees_on_ascii (H := example_runtime) ∧
  ∃ w' node' g styles labels,
    analyze_personality (H := example_runtime) stage4_down document []
      (entity "Alice" "PERSON")
      (posted initial_world (build_step1_prompt document))
      = (Ret ([] ++ [node']), w') ∧
    format_for_st_link_analysis (H := example_runtime)
      (document_graph [node'] (JArr [])) = Ret (g, styles, labels) ∧
    ∃ i, nodes g !! i =
           Some {| node_id := S i; node_label := "PERSON";
                   node_name := JStr "Alice";
                   node_personality :=
                     Some (default (JStr EmptyString)
                             (field "personality" (traits "curious"))) |}.
Proof.
  assert (Hup : agrees_on_ascii (H := example_runtime))
    by (intros s _; reflexivity).
  split; [exact Hup|].
  assert (Hcall :
    call_gemini (H := example_runtime) stage4_down
      (build_step2_prompt (JStr "Alice") document)
      (posted initial_world (build_step1_prompt document))
    = (Ret (traits "curious", None),
       posted (posted initial_world (build_step1_prompt document))
              (build_step2_prompt (JStr "Alice") document)))
    by (vm_compute; reflexivity).
  destruct (personality_round_trip (H := example_runtime) stage4_down
              document [] (entity "Alice" "PERSON") (JStr "Alice") _ _ _
              Hup eq_refl eq_refl Hcall eq_refl) as (node' & Hrun & Hshown).
  assert (Hnode : node' = with_traits "Alice" "PERSON" "curious")
    by (vm_compute in Hrun; by simplify_eq).
  subst node'.
  eexists _, _, _, _, _. split; [exact Hrun|].
  split; [vm_compute; reflexivity|].
  eapply (Hshown [with_traits "Alice" "PERSON" "curious"] (JArr []) _ _ _ 0).
  - vm_compute; reflexivity.
  - reflexivity.
  - reflexivity.
Defined.
